(** * Memory recall subsystem of quant-chat-scaffold

    A shallow embedding of the memory code of the repository:

    - the SQL functions [hybrid_search_memories]
      (supabase/migrations/20251125000001_fix_memory_rpc_table_references.sql)
      and [search_memory_notes]
      (supabase/migrations/20251119194601_....sql),
    - the edge functions [memory-search] and [memory-update]
      (supabase/functions/*/index.ts),
    - the ['memory:recall'] IPC handler (electron/ipc-handlers/memoryHandlers.ts),
    - [validateIPC] and the memory schemas (src/electron/validation/schemas.ts).

    SQL [REAL] and JavaScript numbers are modelled by exact rationals ([Q]);
    SQL [NULL] is [None]; a table is the list of its rows in scan order. *)

From Stdlib Require Import List String Ascii ZArith QArith Qminmax Bool Lia Lqa.
From Stdlib Require Import Permutation Sorting.Sorted.
From stdpp Require Import base option gmap strings.
Import ListNotations.

Local Open Scope string_scope.
Local Open Scope Z_scope.
Local Open Scope Q_scope.

(* ------------------------------------------------------------------ *)
(** ** SQL values and three-valued logic *)

Module Sql.

(** The result of a SQL boolean expression: [None] is unknown (NULL). *)
Definition tv := option bool.

Definition and3 (a b : tv) : tv :=
  match a, b with
  | Some false, _ | _, Some false => Some false
  | Some true, Some true => Some true
  | _, _ => None
  end.

Definition or3 (a b : tv) : tv :=
  match a, b with
  | Some true, _ | _, Some true => Some true
  | Some false, Some false => Some false
  | _, _ => None
  end.

Definition is_null {A} (x : option A) : tv :=
  Some (match x with None => true | Some _ => false end).

Definition is_not_null {A} (x : option A) : tv :=
  Some (match x with None => false | Some _ => true end).

(** [x op y] for a strict operator: NULL as soon as one side is NULL. *)
Definition lift2 {A B C} (op : A -> B -> C) (x : option A) (y : option B)
  : option C :=
  match x, y with
  | Some a, Some b => Some (op a b)
  | _, _ => None
  end.

Definition eq_bool (x y : option bool) : tv := lift2 Bool.eqb x y.
Definition eq_text (x y : option string) : tv := lift2 String.eqb x y.
Definition ge_real (x y : option Q) : tv := lift2 (fun a b => Qle_bool b a) x y.
Definition gt_real (x y : option Q) : tv :=
  lift2 (fun a b => negb (Qle_bool a b)) x y.

Definition mul (x y : option Q) : option Q := lift2 Qmult x y.
Definition add (x y : option Q) : option Q := lift2 Qplus x y.
Definition sub (x y : option Q) : option Q := lift2 Qminus x y.
Definition div (x y : option Q) : option Q := lift2 Qdiv x y.

(** [COALESCE(x, d)] *)
Definition coalesce {A} (x : option A) (d : A) : A :=
  match x with Some a => a | None => d end.

(** [NULLIF(x, y)]: NULL when [x = y], else [x]. *)
Definition nullif (x y : Q) : option Q :=
  if Qeq_bool x y then None else Some x.

(** A [WHERE] or [ON] clause keeps a row only when the condition is true. *)
Definition holds (c : tv) : bool :=
  match c with Some true => true | _ => false end.

(** What a set-returning function gives back: its rows, or the error
    raised while it ran. *)
Inductive result (A : Type) : Type :=
| Rows (rows : list A)
| Raise (msg : string).
Arguments Rows {A} rows.
Arguments Raise {A} msg.

(** [LIMIT n] keeps the first [n] rows; a negative count is an error. *)
Definition limit {A} (n : Z) (rows : list A) : result A :=
  if (n <? 0)%Z then Raise "LIMIT must not be negative"
  else Rows (firstn (Z.to_nat n) rows).

(** [ORDER BY]: a stable insertion sort of the rows as they arrive;
    [before x y] says that [x] may stand in front of [y]. *)
Fixpoint insert_by {A} (before : A -> A -> bool) (x : A) (l : list A)
  : list A :=
  match l with
  | [] => [x]
  | y :: l' => if before x y then x :: l else y :: insert_by before x l'
  end.

Fixpoint order_by {A} (before : A -> A -> bool) (l : list A) : list A :=
  match l with
  | [] => []
  | x :: l' => insert_by before x (order_by before l')
  end.

(** [ORDER BY k ASC] on a non-null key. *)
Definition asc (x y : Q) : bool := Qle_bool x y.

(** [ORDER BY k DESC]: larger keys first, and NULL keys before all
    (PostgreSQL's default [NULLS FIRST] for a descending sort). *)
Definition desc_nulls_first (x y : option Q) : bool :=
  match x, y with
  | None, _ => true
  | Some _, None => false
  | Some a, Some b => Qle_bool b a
  end.

End Sql.

(* ------------------------------------------------------------------ *)
(** ** The [memory_notes] table *)

Definition uuid := string.
Definition tsvector := list string.
Definition tsquery := list string.
Definition vector := list Q.
Definition timestamptz := Z.

Module Note.
(** One row of [memory_notes]; nullable columns are options. *)
Record t : Type := mk {
  id : uuid;
  workspace_id : uuid;
  content : string;
  summary : option string;
  memory_type : option string;
  category : option string;
  symbols : option (list string);
  tags : option (list string);
  importance : option string;
  importance_score : option Q;
  source : string;
  run_id : option uuid;
  metadata : option string;
  embedding : option vector;
  content_tsvector : tsvector;
  archived : option bool;
  protection_level : option Z;
  created_at : timestamptz;
}.
End Note.

(** [id] is the primary key of the table. *)
Definition primary_key (memory_notes : list Note.t) : Prop :=
  List.NoDup (List.map Note.id memory_notes).

(* ------------------------------------------------------------------ *)
(** ** Rows of the intermediate and final result sets *)

Module Scored.
(** A row of the CTEs [bm25_scores] and [vector_scores]. *)
Record t : Type := mk { id : uuid; score : option Q }.
End Scored.

Module Combined.
(** A row of the CTE [combined]. *)
Record t : Type := mk {
  memory_id : option uuid;
  weighted_bm25 : Q;
  weighted_vector : Q;
}.
End Combined.

Module HybridRow.
(** [RETURNS TABLE(...)] of [hybrid_search_memories]. *)
Record t : Type := mk {
  id : uuid;
  content : string;
  summary : option string;
  memory_type : option string;
  category : option string;
  symbols : option (list string);
  importance_score : option Q;
  bm25_score : option Q;
  vector_score : option Q;
  hybrid_score : option Q;
  created_at : timestamptz;
}.
End HybridRow.

Module SearchRow.
(** [RETURNS TABLE(...)] of [search_memory_notes]. *)
Record t : Type := mk {
  id : uuid;
  workspace_id : uuid;
  content : string;
  source : string;
  tags : option (list string);
  created_at : timestamptz;
  run_id : option uuid;
  metadata : option string;
  memory_type : string;
  importance : string;
  similarity : option Q;
}.
End SearchRow.

(** [b.col] of an outer-joined row: NULL when the side [b] is missing. *)
Definition side_id (s : option Scored.t) : option uuid :=
  match s with Some r => Some (Scored.id r) | None => None end.

Definition side_score (s : option Scored.t) : option Q :=
  match s with Some r => Scored.score r | None => None end.

(** [bs FULL OUTER JOIN vs ON b.id = v.id] *)
Definition full_outer_join (bs vs : list Scored.t)
  : list (option Scored.t * option Scored.t) :=
  flat_map
    (fun b =>
       match List.filter (fun v => String.eqb (Scored.id b) (Scored.id v)) vs with
       | [] => [(Some b, None)]
       | ms => List.map (fun v => (Some b, Some v)) ms
       end) bs
  ++ List.map (fun v => (None, Some v))
       (List.filter
          (fun v => negb (existsb (fun b => String.eqb (Scored.id b) (Scored.id v)) bs))
          vs).

(** [INTEGER * INTEGER]: PostgreSQL raises on overflow of the 32-bit range. *)
Definition int4_mul (a b : Z) : option Z :=
  let p := (a * b)%Z in
  if ((-2147483648 <=? p) && (p <=? 2147483647))%Z then Some p else None.

Section Search.

(** PostgreSQL full-text search and pgvector operators; the migrations
    call them and do not define them. *)
Variable plainto_tsquery : string -> tsquery.       (* plainto_tsquery('english', _) *)
Variable ts_match : tsvector -> tsquery -> bool.    (* _ @@ _ *)
Variable ts_rank_cd : tsvector -> tsquery -> Q.
Variable cosine_distance : vector -> vector -> Q.   (* _ <=> _ *)

(** [m.embedding <=> query_embedding], NULL when the embedding is. *)
Definition distance (m : Note.t) (query_embedding : vector) : option Q :=
  match Note.embedding m with
  | Some e => Some (cosine_distance e query_embedding)
  | None => None
  end.

(** [ORDER BY m.embedding <=> query_embedding] (ascending, NULLS LAST). *)
Definition nearer (query_embedding : vector) (x y : Note.t) : bool :=
  match distance x query_embedding, distance y query_embedding with
  | Some a, Some b => Sql.asc a b
  | Some _, None => true
  | None, Some _ => false
  | None, None => true
  end.

Section Hybrid.
Variable query_text : string.
Variable query_embedding : vector.
Variable match_workspace_id : uuid.
Variable limit_count : Z.
Variable bm25_weight vector_weight min_importance : Q.
Variable memory_notes : list Note.t.

(** The [WHERE] clause of [bm25_scores]. *)
Definition bm25_where (m : Note.t) : Sql.tv :=
  Sql.and3
    (Sql.and3
       (Sql.and3
          (Some (String.eqb (Note.workspace_id m) match_workspace_id))
          (Some (ts_match (Note.content_tsvector m) (plainto_tsquery query_text))))
       (Sql.ge_real (Note.importance_score m) (Some min_importance)))
    (Sql.or3 (Sql.is_null (Note.archived m))
             (Sql.eq_bool (Note.archived m) (Some false))).

Definition bm25_scores : list Scored.t :=
  List.map
    (fun m =>
       Scored.mk (Note.id m)
         (Some (ts_rank_cd (Note.content_tsvector m) (plainto_tsquery query_text))))
    (List.filter (fun m => Sql.holds (bm25_where m)) memory_notes).

(** The [WHERE] clause of [vector_scores]. *)
Definition vector_where (m : Note.t) : Sql.tv :=
  Sql.and3
    (Sql.and3
       (Sql.and3
          (Some (String.eqb (Note.workspace_id m) match_workspace_id))
          (Sql.is_not_null (Note.embedding m)))
       (Sql.ge_real (Note.importance_score m) (Some min_importance)))
    (Sql.or3 (Sql.is_null (Note.archived m))
             (Sql.eq_bool (Note.archived m) (Some false))).

Definition vector_scores : Sql.result Scored.t :=
  match int4_mul limit_count 2 with
  | None => Sql.Raise "integer out of range"
  | Some n =>
      match
        Sql.limit n
          (Sql.order_by (nearer query_embedding)
             (List.filter (fun m => Sql.holds (vector_where m)) memory_notes))
      with
      | Sql.Raise e => Sql.Raise e
      | Sql.Rows ms =>
          Sql.Rows
            (List.map
               (fun m =>
                  Scored.mk (Note.id m)
                    (Sql.sub (Some 1) (distance m query_embedding)))
               ms)
      end
  end.

Definition combined (bs vs : list Scored.t) : list Combined.t :=
  List.map
    (fun bv =>
       let '(b, v) := bv in
       Combined.mk
         (match side_id b with Some i => Some i | None => side_id v end)
         (Sql.coalesce (side_score b) 0 * bm25_weight)
         (Sql.coalesce (side_score v) 0 * vector_weight))
    (full_outer_join bs vs).

(** The final [SELECT ... FROM combined c JOIN memory_notes m ON m.id = c.memory_id]. *)
Definition select_row (c : Combined.t) (m : Note.t) : HybridRow.t :=
  HybridRow.mk
    (Note.id m) (Note.content m) (Note.summary m) (Note.memory_type m)
    (Note.category m) (Note.symbols m) (Note.importance_score m)
    (Sql.div (Some (Combined.weighted_bm25 c)) (Sql.nullif bm25_weight 0))
    (Sql.div (Some (Combined.weighted_vector c)) (Sql.nullif vector_weight 0))
    (Sql.mul (Some (Combined.weighted_bm25 c + Combined.weighted_vector c))
             (Note.importance_score m))
    (Note.created_at m).

Definition joined (cs : list Combined.t) : list HybridRow.t :=
  flat_map
    (fun c =>
       List.map (select_row c)
         (List.filter
            (fun m => Sql.holds (Sql.eq_text (Some (Note.id m)) (Combined.memory_id c)))
            memory_notes))
    cs.

(** [ORDER BY hybrid_score DESC] *)
Definition by_hybrid_score_desc (x y : HybridRow.t) : bool :=
  Sql.desc_nulls_first (HybridRow.hybrid_score x) (HybridRow.hybrid_score y).

Definition hybrid_search_memories : Sql.result HybridRow.t :=
  match vector_scores with
  | Sql.Raise e => Sql.Raise e
  | Sql.Rows vs =>
      Sql.limit limit_count
        (Sql.order_by by_hybrid_score_desc (joined (combined bm25_scores vs)))
  end.

End Hybrid.

(** Defaults of the parameter list: [limit_count INTEGER DEFAULT 20],
    [bm25_weight REAL DEFAULT 0.3], [vector_weight REAL DEFAULT 0.7],
    [min_importance REAL DEFAULT 0.0]. *)
Definition default_limit_count : Z := 20.
Definition default_bm25_weight : Q := 3 # 10.
Definition default_vector_weight : Q := 7 # 10.
Definition default_min_importance : Q := 0.

Section SearchNotes.
Variable query_embedding : vector.
Variable match_workspace_id : uuid.
Variable match_threshold : Q.
Variable match_count : option Z.

(** [1 - (memory_notes.embedding <=> query_embedding)] *)
Definition similarity_of (m : Note.t) : option Q :=
  Sql.sub (Some 1) (distance m query_embedding).

Definition notes_where (m : Note.t) : Sql.tv :=
  Sql.and3
    (Sql.and3
       (Sql.and3
          (Some (String.eqb (Note.workspace_id m) match_workspace_id))
          (Sql.is_not_null (Note.embedding m)))
       (Sql.eq_bool (Note.archived m) (Some false)))
    (Sql.gt_real (similarity_of m) (Some match_threshold)).

Definition notes_row (m : Note.t) : SearchRow.t :=
  SearchRow.mk
    (Note.id m) (Note.workspace_id m) (Note.content m) (Note.source m)
    (Note.tags m) (Note.created_at m) (Note.run_id m) (Note.metadata m)
    (Sql.coalesce (Note.memory_type m) "insight")
    (Sql.coalesce (Note.importance m) "normal")
    (similarity_of m).

(** [LIMIT match_count]; a NULL count means no limit. *)
Definition search_memory_notes (memory_notes : list Note.t)
  : Sql.result SearchRow.t :=
  let sorted :=
    Sql.order_by (nearer query_embedding)
      (List.filter (fun m => Sql.holds (notes_where m)) memory_notes) in
  match match_count with
  | None => Sql.Rows (List.map notes_row sorted)
  | Some n =>
      match Sql.limit n sorted with
      | Sql.Raise e => Sql.Raise e
      | Sql.Rows ms => Sql.Rows (List.map notes_row ms)
      end
  end.

End SearchNotes.

End Search.

(* ------------------------------------------------------------------ *)
(** ** JavaScript values *)

Module Js.

(** A JavaScript number: a finite value, an infinity or NaN. *)
Inductive num : Type := NaN | Fin (q : Q) | PosInf | NegInf.

(** What [await req.json()] can hold in a field; [Undefined] is a
    missing field. *)
#[local] Set Warnings "-register-all".
Inductive value : Type :=
| Undefined
| Null
| Bool (b : bool)
| Number (n : num)
| String (s : string)
| Array (items : list value)
| Object (props : list (string * value)).

(** [!!v] *)
Definition truthy (v : value) : bool :=
  match v with
  | Undefined | Null => false
  | Bool b => b
  | Number NaN => false
  | Number (Fin q) => negb (Qeq_bool q 0)
  | Number _ => true
  | String s => negb (String.eqb s "")
  | Array _ | Object _ => true
  end.

(** [typeof v === 'string'] and [typeof v === 'number'] *)
Definition is_string (v : value) : bool :=
  match v with String _ => true | _ => false end.
Definition is_number (v : value) : bool :=
  match v with Number _ => true | _ => false end.

(** [a > b] on numbers: false as soon as one side is NaN. *)
Definition gt (a b : num) : bool :=
  match a, b with
  | NaN, _ | _, NaN => false
  | PosInf, PosInf => false
  | PosInf, _ => true
  | _, PosInf => false
  | NegInf, _ => false
  | Fin _, NegInf => true
  | Fin x, Fin y => negb (Qle_bool x y)
  end.

(** [Math.min(a, b)] *)
Definition Math_min (a b : num) : num :=
  match a, b with
  | NaN, _ | _, NaN => NaN
  | NegInf, _ | _, NegInf => NegInf
  | PosInf, x | x, PosInf => x
  | Fin x, Fin y => if Qle_bool x y then Fin x else Fin y
  end.

(** White space removed by [String.prototype.trim] (the one-byte part). *)
Definition is_space (c : ascii) : bool :=
  let n := nat_of_ascii c in
  ((n =? 32) || (n =? 9) || (n =? 10) || (n =? 11) || (n =? 12) || (n =? 13))%nat.

Fixpoint trim_start (s : string) : string :=
  match s with
  | EmptyString => EmptyString
  | String.String c s' => if is_space c then trim_start s' else s
  end.

Fixpoint string_rev_append (s acc : string) : string :=
  match s with
  | EmptyString => acc
  | String.String c s' => string_rev_append s' (String.String c acc)
  end.

Definition string_rev (s : string) : string := string_rev_append s EmptyString.

(** [s.trim()] *)
Definition trim (s : string) : string :=
  string_rev (trim_start (string_rev (trim_start s))).

(** [[a, b, ...].join(sep)] *)
Fixpoint join (sep : string) (l : list string) : string :=
  match l with
  | [] => ""
  | [x] => x
  | x :: l' => x ++ sep ++ join sep l'
  end.

(** [xs.includes(v)] for an array of strings [xs]. *)
Definition includes (xs : list string) (v : value) : bool :=
  match v with
  | String s => existsb (String.eqb s) xs
  | _ => false
  end.

Section Coercions.
(** The two conversions of ECMAScript between strings and numbers. *)
Variable StringToNumber : string -> num.
Variable NumberToString : num -> string.

(** [String(v)] *)
Fixpoint ToString (v : value) : string :=
  match v with
  | Undefined => "undefined"
  | Null => "null"
  | Bool true => "true"
  | Bool false => "false"
  | Number n => NumberToString n
  | String s => s
  | Array items =>
      join ","
        (List.map
           (fun x => match x with
                     | Undefined | Null => ""
                     | _ => ToString x
                     end) items)
  | Object _ => "[object Object]"
  end.

(** [Number(v)], the coercion [Math.min] applies to its arguments. *)
Definition ToNumber (v : value) : num :=
  match v with
  | Undefined => NaN
  | Null => Fin 0
  | Bool true => Fin 1
  | Bool false => Fin 0
  | Number n => n
  | String s => StringToNumber s
  | Array _ | Object _ => StringToNumber (ToString v)
  end.
End Coercions.

End Js.

(** An HTTP response of an edge function: the status and the JSON body. *)
Record Response (B : Type) : Type := mkResponse { status : Z; body : B }.
Arguments mkResponse {B} status body.
Arguments status {B} r.
Arguments body {B} r.

(** [Deno.env.get] for the two variables the edge functions read. *)
Record Env : Type := mkEnv {
  SUPABASE_URL : option string;
  SUPABASE_SERVICE_ROLE_KEY : option string;
}.

Definition env_configured (e : Env) : bool :=
  match SUPABASE_URL e, SUPABASE_SERVICE_ROLE_KEY e with
  | Some u, Some k => negb (String.eqb u "") && negb (String.eqb k "")
  | _, _ => false
  end.

(** What [await req.json()] gives: the destructured fields, or the
    exception it throws on a malformed body. *)
Inductive Parsed (F : Type) : Type :=
| Json (fields : F)
| JsonThrows (message : string).
Arguments Json {F} fields.
Arguments JsonThrows {F} message.

Record Request (F : Type) : Type := mkRequest { method : string; json : Parsed F }.
Arguments mkRequest {F} method json.
Arguments method {F} r.
Arguments json {F} r.

(** How supabase-js hands a JavaScript number to an [INTEGER] parameter of
    an RPC: the arguments travel as JSON, where NaN and the infinities are
    written [null]; PostgreSQL rejects a number that is not a 32-bit
    integer.  [None] stands for that rejection, [Some None] for NULL. *)
Definition rpc_integer (n : Js.num) : option (option Z) :=
  match n with
  | Js.Fin q =>
      let z := (Qnum q / Zpos (Qden q))%Z in
      if ((Qnum q mod Zpos (Qden q) =? 0)
          && (-2147483648 <=? z) && (z <=? 2147483647))%Z
      then Some (Some z) else None
  | _ => Some None
  end.

(* ------------------------------------------------------------------ *)
(** ** supabase/functions/memory-search/index.ts *)

Module MemorySearch.

(** [const { workspaceId, query, limit = 10 } = await req.json()] *)
Record Fields : Type := mkFields {
  workspaceId : Js.value;
  query : Js.value;
  limit : Js.value;
}.

(** The JSON body of a response; a key that is not written is [None]. *)
Record Body : Type := mkBody {
  error : option string;
  message : option string;
  results : option (list SearchRow.t);
}.

Section Handler.
Variable StringToNumber : string -> Js.num.
Variable NumberToString : Js.num -> string.
Variable cosine_distance : vector -> vector -> Q.
(** [generateEmbedding] of [_shared/embeddings.ts]: the embedding of a
    text, or null. *)
Variable generateEmbedding : string -> option vector.

(** [limit = 10]: the default applies to a missing field only. *)
Definition limit_or_default (f : Fields) : Js.value :=
  match limit f with Js.Undefined => Js.Number (Js.Fin 10) | v => v end.

(** [Math.min(limit, 50)] *)
Definition match_count (lim : Js.value) : Js.num :=
  Js.Math_min (Js.ToNumber StringToNumber NumberToString lim) (Js.Fin 50).

(** [typeof limit === 'number' && limit > 50 ? 0.5 : 0.5] *)
Definition threshold (lim : Js.value) : Q :=
  if Js.is_number lim
     && Js.gt (Js.ToNumber StringToNumber NumberToString lim) (Js.Fin 50)
  then 1 # 2 else 1 # 2.

(** [note.archived] of a returned row: [search_memory_notes] returns no
    such column, so the property is missing. *)
Definition row_archived (_ : SearchRow.t) : Js.value := Js.Undefined.

(** [note.archived !== true] *)
Definition not_archived (note : SearchRow.t) : bool :=
  match row_archived note with Js.Bool true => false | _ => true end.

Definition serve (env : Env) (memory_notes : list Note.t)
    (req : Request Fields) : Response Body :=
  if String.eqb (method req) "OPTIONS" then
    mkResponse 200 (mkBody None None None)
  else
    match json req with
    | JsonThrows msg => mkResponse 500 (mkBody (Some msg) None (Some []))
    | Json f =>
        let lim := limit_or_default f in
        if negb (Js.truthy (workspaceId f)) then
          mkResponse 400 (mkBody (Some "workspaceId is required") None None)
        else
          match query f with
          | Js.String q =>
              if String.eqb q "" || (String.length (Js.trim q) =? 0)%nat then
                mkResponse 400
                  (mkBody (Some "query is required and must be a non-empty string")
                          None None)
              else
                match generateEmbedding q with
                | None =>
                    mkResponse 500
                      (mkBody (Some "EMBEDDING_FAILED")
                              (Some "Failed to generate embedding for query")
                              (Some []))
                | Some queryEmbedding =>
                    if negb (env_configured env) then
                      mkResponse 500
                        (mkBody (Some "CONFIG_ERROR")
                                (Some "Server configuration error") (Some []))
                    else
                      let database_error :=
                        mkResponse 500
                          (mkBody (Some "DATABASE_ERROR")
                                  (Some "Database search failed") (Some [])) in
                      match workspaceId f, rpc_integer (match_count lim) with
                      | Js.String ws, Some count =>
                          match
                            search_memory_notes cosine_distance queryEmbedding ws
                              (threshold lim) count memory_notes
                          with
                          | Sql.Raise _ => database_error
                          | Sql.Rows data =>
                              mkResponse 200
                                (mkBody None None
                                   (Some (List.filter not_archived data)))
                          end
                      | _, _ =>
                          (* a workspace id that is not text, or a count that
                             is not an integer, is refused by the database *)
                          database_error
                      end
                end
          | _ =>
              mkResponse 400
                (mkBody (Some "query is required and must be a non-empty string")
                        None None)
          end
    end.

End Handler.

End MemorySearch.

(* ------------------------------------------------------------------ *)
(** ** supabase/functions/memory-update/index.ts *)

Module MemoryUpdate.

(** [const { noteId, content, memoryType, importance, tags, archived }
     = await req.json()] *)
Record Fields : Type := mkFields {
  noteId : Js.value;
  content : Js.value;
  memoryType : Js.value;
  importance : Js.value;
  tags : Js.value;
  archived : Js.value;
}.

Record Body : Type := mkBody {
  error : option string;
  message : option string;
  success : option bool;
  note : option Note.t;
  changedFields : option (list string);
}.

Definition error_body (e : string) (m : option string) : Body :=
  mkBody (Some e) m None None None.

Definition validTypes : list string :=
  ["insight"; "rule"; "warning"; "todo"; "bug"; "profile_change"].
Definition validImportance : list string :=
  ["low"; "normal"; "high"; "critical"].

(** The columns an update can write, each with the JSON values the
    column accepts; [None] is the database refusing the value. *)
Definition as_text (v : Js.value) : option (option string) :=
  match v with
  | Js.String s => Some (Some s)
  | Js.Null => Some None
  | _ => None
  end.

Definition as_boolean (v : Js.value) : option (option bool) :=
  match v with
  | Js.Bool b => Some (Some b)
  | Js.Null => Some None
  | _ => None
  end.

Fixpoint as_text_items (items : list Js.value) : option (list string) :=
  match items with
  | [] => Some []
  | Js.String s :: rest =>
      match as_text_items rest with Some l => Some (s :: l) | None => None end
  | _ => None
  end.

Definition as_text_array (v : Js.value) : option (option (list string)) :=
  match v with
  | Js.Array items =>
      match as_text_items items with Some l => Some (Some l) | None => None end
  | Js.Null => Some None
  | _ => None
  end.

Fixpoint as_reals (items : list Js.value) : option vector :=
  match items with
  | [] => Some []
  | Js.Number (Js.Fin q) :: rest =>
      match as_reals rest with Some l => Some (q :: l) | None => None end
  | _ => None
  end.

Definition as_vector (v : Js.value) : option (option vector) :=
  match v with
  | Js.Array items =>
      match as_reals items with Some l => Some (Some l) | None => None end
  | Js.Null => Some None
  | _ => None
  end.

Definition of_vector (e : vector) : Js.value :=
  Js.Array (List.map (fun q => Js.Number (Js.Fin q)) e).

(** The setters of the columns.  [content_tsvector] is derived from
    [content] by the database and is left as it is here. *)
Definition set_content (s : string) (m : Note.t) : Note.t :=
  Note.mk (Note.id m) (Note.workspace_id m) s (Note.summary m)
    (Note.memory_type m) (Note.category m) (Note.symbols m) (Note.tags m)
    (Note.importance m) (Note.importance_score m) (Note.source m)
    (Note.run_id m) (Note.metadata m) (Note.embedding m)
    (Note.content_tsvector m) (Note.archived m) (Note.protection_level m)
    (Note.created_at m).

Definition set_embedding (e : option vector) (m : Note.t) : Note.t :=
  Note.mk (Note.id m) (Note.workspace_id m) (Note.content m) (Note.summary m)
    (Note.memory_type m) (Note.category m) (Note.symbols m) (Note.tags m)
    (Note.importance m) (Note.importance_score m) (Note.source m)
    (Note.run_id m) (Note.metadata m) e
    (Note.content_tsvector m) (Note.archived m) (Note.protection_level m)
    (Note.created_at m).

Definition set_memory_type (t : option string) (m : Note.t) : Note.t :=
  Note.mk (Note.id m) (Note.workspace_id m) (Note.content m) (Note.summary m)
    t (Note.category m) (Note.symbols m) (Note.tags m)
    (Note.importance m) (Note.importance_score m) (Note.source m)
    (Note.run_id m) (Note.metadata m) (Note.embedding m)
    (Note.content_tsvector m) (Note.archived m) (Note.protection_level m)
    (Note.created_at m).

Definition set_importance (i : option string) (m : Note.t) : Note.t :=
  Note.mk (Note.id m) (Note.workspace_id m) (Note.content m) (Note.summary m)
    (Note.memory_type m) (Note.category m) (Note.symbols m) (Note.tags m)
    i (Note.importance_score m) (Note.source m)
    (Note.run_id m) (Note.metadata m) (Note.embedding m)
    (Note.content_tsvector m) (Note.archived m) (Note.protection_level m)
    (Note.created_at m).

Definition set_tags (t : option (list string)) (m : Note.t) : Note.t :=
  Note.mk (Note.id m) (Note.workspace_id m) (Note.content m) (Note.summary m)
    (Note.memory_type m) (Note.category m) (Note.symbols m) t
    (Note.importance m) (Note.importance_score m) (Note.source m)
    (Note.run_id m) (Note.metadata m) (Note.embedding m)
    (Note.content_tsvector m) (Note.archived m) (Note.protection_level m)
    (Note.created_at m).

Definition set_archived (a : option bool) (m : Note.t) : Note.t :=
  Note.mk (Note.id m) (Note.workspace_id m) (Note.content m) (Note.summary m)
    (Note.memory_type m) (Note.category m) (Note.symbols m) (Note.tags m)
    (Note.importance m) (Note.importance_score m) (Note.source m)
    (Note.run_id m) (Note.metadata m) (Note.embedding m)
    (Note.content_tsvector m) a (Note.protection_level m)
    (Note.created_at m).

(** Writing one key of [updateData] into a row. *)
Definition set_column (col : string) (v : Js.value) (m : Note.t)
  : option Note.t :=
  if String.eqb col "content" then
    match v with Js.String s => Some (set_content s m) | _ => None end
  else if String.eqb col "embedding" then
    option_map (fun e => set_embedding e m) (as_vector v)
  else if String.eqb col "memory_type" then
    option_map (fun t => set_memory_type t m) (as_text v)
  else if String.eqb col "importance" then
    option_map (fun i => set_importance i m) (as_text v)
  else if String.eqb col "tags" then
    option_map (fun t => set_tags t m) (as_text_array v)
  else if String.eqb col "archived" then
    option_map (fun a => set_archived a m) (as_boolean v)
  else None.

Definition columns : list string :=
  ["content"; "embedding"; "memory_type"; "importance"; "tags"; "archived"].

(** [SET] of the keys present in [updateData]. *)
Definition apply_update (updateData : gmap string Js.value) (m : Note.t)
  : option Note.t :=
  fold_left
    (fun acc col =>
       match acc, updateData !! col with
       | Some row, Some v => set_column col v row
       | _, _ => acc
       end)
    columns (Some m).

(** [.from('memory_notes').select('*').eq('id', noteId).maybeSingle()]:
    [inl] is [fetchError], [inr] is [data].  An id that is not text is
    refused by the database; so is a filter that matches several rows. *)
Definition fetch_note (memory_notes : list Note.t) (noteId : Js.value)
  : unit + option Note.t :=
  match noteId with
  | Js.String i =>
      match List.filter (fun m => String.eqb (Note.id m) i) memory_notes with
      | [] => inr None
      | [m] => inr (Some m)
      | _ => inl tt
      end
  | _ => inl tt
  end.

(** [.update(updateData).eq('id', noteId).select().single()]: the
    updated row and the table after the update, or [None] for [error]. *)
Fixpoint update_rows (updateData : gmap string Js.value) (i : uuid)
    (memory_notes : list Note.t) : option (list Note.t * list Note.t) :=
  match memory_notes with
  | [] => Some ([], [])
  | m :: rest =>
      match update_rows updateData i rest with
      | None => None
      | Some (changed, rest') =>
          if String.eqb (Note.id m) i then
            match apply_update updateData m with
            | Some m' => Some (m' :: changed, m' :: rest')
            | None => None
            end
          else Some (changed, m :: rest')
      end
  end.

Definition update_note (updateData : gmap string Js.value) (noteId : Js.value)
    (memory_notes : list Note.t) : option (Note.t * list Note.t) :=
  match noteId with
  | Js.String i =>
      match update_rows updateData i memory_notes with
      | Some ([m'], table') => Some (m', table')
      | _ => None
      end
  | _ => None
  end.

(** [updateData] and [changedFields] while the handler fills them. *)
Definition Draft : Type := gmap string Js.value * list string.

Definition put (col : string) (v : Js.value) (d : Draft) : Draft :=
  (<[col := v]> (fst d), (snd d ++ [col])%list).

(** [if (v !== undefined) { updateData.col = v; changedFields.push(col) }] *)
Definition put_if_defined (col : string) (v : Js.value) (d : Draft) : Draft :=
  match v with Js.Undefined => d | _ => put col v d end.

Section Handler.
Variable NumberToString : Js.num -> string.
(** [generateEmbedding] of [_shared/embeddings.ts]. *)
Variable generateEmbedding : string -> option vector.

(** [if (trimmedContent !== existingNote.content) { ... }] *)
Definition regenerate_embedding (trimmedContent : string)
    (existingNote : Note.t) (d : Draft) : Draft :=
  if negb (String.eqb trimmedContent (Note.content existingNote)) then
    match generateEmbedding trimmedContent with
    | Some newEmbedding => put "embedding" (of_vector newEmbedding) d
    | None => d
    end
  else d.

(** The [content] block; [None] is the empty-content rejection. *)
Definition content_step (c : Js.value) (existingNote : Note.t) (d : Draft)
  : option Draft :=
  match c with
  | Js.Undefined | Js.Null => Some d
  | _ =>
      let trimmedContent :=
        Js.trim (Js.ToString NumberToString c) in
      if String.eqb trimmedContent "" then None
      else Some (regenerate_embedding trimmedContent existingNote
                   (put "content" (Js.String trimmedContent) d))
  end.

Definition other_steps (f : Fields) (d : Draft) : Draft :=
  put_if_defined "archived" (archived f)
    (put_if_defined "tags" (tags f)
       (put_if_defined "importance" (importance f)
          (put_if_defined "memory_type" (memoryType f) d))).

(** The handler: the response, and [memory_notes] after the request. *)
Definition serve (env : Env) (memory_notes : list Note.t)
    (req : Request Fields) : Response Body * list Note.t :=
  let reply (st : Z) (b : Body) := (mkResponse st b, memory_notes) in
  if String.eqb (method req) "OPTIONS" then
    reply 200%Z (mkBody None None None None None)
  else
    match json req with
    | JsonThrows msg => reply 500%Z (error_body msg None)
    | Json f =>
        if negb (Js.truthy (noteId f)) then
          reply 400%Z (error_body "noteId is required" None)
        else if Js.truthy (memoryType f)
                && negb (Js.includes validTypes (memoryType f)) then
          reply 400%Z
            (error_body
               ("Invalid memory_type. Must be one of: "
                ++ Js.join ", " validTypes) None)
        else if Js.truthy (importance f)
                && negb (Js.includes validImportance (importance f)) then
          reply 400%Z
            (error_body
               ("Invalid importance. Must be one of: "
                ++ Js.join ", " validImportance) None)
        else if negb (env_configured env) then
          reply 500%Z
            (error_body "CONFIG_ERROR" (Some "Server configuration error"))
        else
          match fetch_note memory_notes (noteId f) with
          | inl _ =>
              reply 500%Z
                (error_body "DATABASE_ERROR"
                   (Some "Failed to fetch note for update"))
          | inr None =>
              reply 404%Z (error_body "NOT_FOUND" (Some "Note not found"))
          | inr (Some existingNote) =>
              match content_step (content f) existingNote (∅, []) with
              | None =>
                  reply 400%Z
                    (error_body "VALIDATION_ERROR"
                       (Some "Content cannot be empty"))
              | Some d =>
                  let '(updateData, changed) := other_steps f d in
                  match update_note updateData (noteId f) memory_notes with
                  | None =>
                      reply 500%Z
                        (error_body "DATABASE_ERROR"
                           (Some "Failed to update memory note"))
                  | Some (data, memory_notes') =>
                      (mkResponse 200
                         (mkBody None None (Some true) (Some data)
                                 (Some changed)),
                       memory_notes')
                  end
              end
          end
    end.

(** The earlier version of the handler (no configuration check, no
    empty-content check, [content.trim()] on the raw value). *)
Definition content_step_earlier (c : Js.value) (existingNote : Note.t)
    (d : Draft) : string + Draft :=
  match c with
  | Js.Undefined => inr d
  | Js.String s =>
      inr (regenerate_embedding (Js.trim s) existingNote
             (put "content" (Js.String (Js.trim s)) d))
  | Js.Null => inl "Cannot read properties of null (reading 'trim')"
  | _ => inl "content.trim is not a function"
  end.

Definition serve_earlier (env : Env) (memory_notes : list Note.t)
    (req : Request Fields) : Response Body * list Note.t :=
  let reply (st : Z) (b : Body) := (mkResponse st b, memory_notes) in
  if String.eqb (method req) "OPTIONS" then
    reply 200%Z (mkBody None None None None None)
  else
    match json req with
    | JsonThrows msg => reply 500%Z (error_body msg None)
    | Json f =>
        if negb (Js.truthy (noteId f)) then
          reply 400%Z (error_body "noteId is required" None)
        else if Js.truthy (memoryType f)
                && negb (Js.includes validTypes (memoryType f)) then
          reply 400%Z
            (error_body
               ("Invalid memory_type. Must be one of: "
                ++ Js.join ", " validTypes) None)
        else if Js.truthy (importance f)
                && negb (Js.includes validImportance (importance f)) then
          reply 400%Z
            (error_body
               ("Invalid importance. Must be one of: "
                ++ Js.join ", " validImportance) None)
        else if negb (env_configured env) then
          (* [createClient] throws on a missing URL or key *)
          reply 500%Z (error_body "supabaseUrl is required." None)
        else
          match fetch_note memory_notes (noteId f) with
          | inl _ => reply 500%Z (error_body "Failed to fetch note for update" None)
          | inr None => reply 404%Z (error_body "Note not found" None)
          | inr (Some existingNote) =>
              match content_step_earlier (content f) existingNote (∅, []) with
              | inl msg => reply 500%Z (error_body msg None)
              | inr d =>
                  let '(updateData, _) := other_steps f d in
                  match update_note updateData (noteId f) memory_notes with
                  | None =>
                      reply 500%Z (error_body "Failed to update memory note" None)
                  | Some (data, memory_notes') =>
                      (mkResponse 200
                         (mkBody None None (Some true) (Some data) None),
                       memory_notes')
                  end
              end
          end
    end.

End Handler.

End MemoryUpdate.

(* ------------------------------------------------------------------ *)
(** ** Exceptions *)

(** A JavaScript [Error] object. *)
Record JsError : Type := mkError { error_message : string }.

(** How a call ends: it returns a value or throws. *)
Inductive Completion (A : Type) : Type :=
| Returns (v : A)
| Throws (e : JsError).
Arguments Returns {A} v.
Arguments Throws {A} e.

(* ------------------------------------------------------------------ *)
(** ** electron/ipc-handlers/memoryHandlers.ts: ['memory:recall'] *)

Module MemoryHandlers.

Record RecallOptions : Type := mkOptions {
  limit : option Q;
  minImportance : option Q;
  useCache : option bool;
  rerank : option bool;
  categories : option (list string);
  symbols : option (list string);
}.

Section Recall.
(** The type of a recalled memory ([memories: any[]]). *)
Variable Memory : Type.

Record RecallResult : Type := mkResult {
  memories : list Memory;
  totalFound : Z;
  searchTimeMs : Q;
  usedCache : bool;
  query : string;
  error : option string;
}.

(** [RecallEngine] lives in [../memory/RecallEngine]; the handler only
    uses its [recall] method, which resolves to a result or rejects
    with an [Error]. *)
Record RecallEngine : Type := mkEngine {
  recall : string -> string -> option RecallOptions -> Completion RecallResult;
}.

(** The module-level variable [recallEngine], null until
    [setMemoryServices] runs. *)
Record Services : Type := mkServices { recallEngine : option RecallEngine }.

Definition initial_services : Services := mkServices None.

Definition setMemoryServices (recall : RecallEngine) (_ : Services)
  : Services := mkServices (Some recall).

(** [{ memories: [], totalFound: 0, searchTimeMs: 0, usedCache: false, query }] *)
Definition empty_result (q : string) (err : option string) : RecallResult :=
  mkResult [] 0 0 false q err.

(** The handler registered for ['memory:recall']. *)
Definition memory_recall (s : Services) (q : string) (workspaceId : string)
    (options : option RecallOptions) : Completion RecallResult :=
  match recallEngine s with
  | None => Returns (empty_result q None)
  | Some engine =>
      match recall engine q workspaceId options with
      | Returns r => Returns r
      | Throws err => Returns (empty_result q (Some (error_message err)))
      end
  end.
End Recall.

End MemoryHandlers.

(* ------------------------------------------------------------------ *)
(** ** src/electron/validation/schemas.ts *)

Module Schemas.

(** One entry of [result.error.errors]. *)
Record ZodIssue : Type := mkIssue { path : list string; message : string }.

(** The result of [schema.safeParse(data)]. *)
Inductive SafeParseReturn (T : Type) : Type :=
| Success (data : T)
| Failure (errors : list ZodIssue).
Arguments Success {T} data.
Arguments Failure {T} errors.

(** A [z.ZodSchema<T>], seen through its [safeParse]. *)
Definition ZodSchema (T : Type) : Type := Js.value -> SafeParseReturn T.

(** [e => `${e.path.join('.')}: ${e.message}`] *)
Definition format_issue (e : ZodIssue) : string :=
  Js.join "." (path e) ++ ": " ++ message e.

Definition validateIPC {T} (schema : ZodSchema T) (data : Js.value)
    (context : string) : Completion T :=
  match schema data with
  | Failure issues =>
      let errors := Js.join ", " (List.map format_issue issues) in
      Throws (mkError ("Invalid " ++ context ++ ": " ++ errors))
  | Success d => Returns d
  end.

(** *** [z.string()] with its checks *)

Inductive StringCheck : Type := Min (n : nat) | Max (n : nat) | Uuid.

Definition is_hex (c : ascii) : bool :=
  let n := nat_of_ascii c in
  (((48 <=? n) && (n <=? 57)) || ((65 <=? n) && (n <=? 70))
   || ((97 <=? n) && (n <=? 102)))%nat.

(** [s] starts with [n] hexadecimal digits; the rest is returned. *)
Fixpoint hex_run (n : nat) (s : string) : option string :=
  match n, s with
  | O, _ => Some s
  | S n', String.String c s' => if is_hex c then hex_run n' s' else None
  | S _, EmptyString => None
  end.

Definition dash (s : string) : option string :=
  match s with
  | String.String "-"%char s' => Some s'
  | _ => None
  end.

(** The textual form of a UUID, 8-4-4-4-12 hexadecimal digits, which
    [.uuid()] asks for. *)
Definition is_uuid (s : string) : bool :=
  match
    fold_left
      (fun rest step => match rest with Some r => step r | None => None end)
      [hex_run 8; dash; hex_run 4; dash; hex_run 4; dash; hex_run 4; dash;
       hex_run 12]
      (Some s)
  with
  | Some EmptyString => true
  | _ => false
  end.

Definition nat_to_string (n : nat) : string :=
  pretty.pretty_nat n.

(** The issue a check raises on [s], if any (zod's default messages). *)
Definition check_issue (s : string) (c : StringCheck) : option ZodIssue :=
  match c with
  | Min n =>
      if (String.length s <? n)%nat then
        Some (mkIssue []
                ("String must contain at least " ++ nat_to_string n
                 ++ " character(s)"))
      else None
  | Max n =>
      if (n <? String.length s)%nat then
        Some (mkIssue []
                ("String must contain at most " ++ nat_to_string n
                 ++ " character(s)"))
      else None
  | Uuid => if is_uuid s then None else Some (mkIssue [] "Invalid uuid")
  end.

Definition received (v : Js.value) : string :=
  match v with
  | Js.Undefined => "undefined"
  | Js.Null => "null"
  | Js.Bool _ => "boolean"
  | Js.Number Js.NaN => "nan"
  | Js.Number _ => "number"
  | Js.String _ => "string"
  | Js.Array _ => "array"
  | Js.Object _ => "object"
  end.

(** [z.string().check1().check2()...] *)
Definition z_string (checks : list StringCheck) : ZodSchema string :=
  fun v =>
    match v with
    | Js.String s =>
        match omap (check_issue s) checks with
        | [] => Success s
        | issues => Failure issues
        end
    | Js.Undefined => Failure [mkIssue [] "Required"]
    | _ => Failure [mkIssue [] ("Expected string, received " ++ received v)]
    end.

(** [z.string().min(1).max(2000)] *)
Definition MemoryQuerySchema : ZodSchema string := z_string [Min 1; Max 2000].

(** [z.string().uuid()] *)
Definition WorkspaceIdSchema : ZodSchema string := z_string [Uuid].

End Schemas.

(* ------------------------------------------------------------------ *)
(** ** Properties stated about the code *)

(** The score a CTE holds for an id ([COALESCE(x.score, 0)]), 0 when the
    id has no row in it. *)
Definition score_of (scores : list Scored.t) (i : uuid) : Q :=
  match List.find (fun r => String.eqb (Scored.id r) i) scores with
  | Some r => Sql.coalesce (Scored.score r) 0
  | None => 0
  end.

Definition has_score (scores : list Scored.t) (i : uuid) : bool :=
  existsb (fun r => String.eqb (Scored.id r) i) scores.

(** The rows of a result, none when the call raised. *)
Definition rows_of {A} (r : Sql.result A) : list A :=
  match r with Sql.Rows l => l | Sql.Raise _ => [] end.

(** Descending order of the blended score, for a whole result. *)
Definition sorted_by_hybrid_score_desc (rows : list HybridRow.t) : Prop :=
  StronglySorted
    (fun x y =>
       Sql.desc_nulls_first (HybridRow.hybrid_score x) (HybridRow.hybrid_score y)
       = true)
    rows.

(** A row with the two columns the tie-break of the specification reads
    blanked out. *)
Definition without_tie_break_columns (m : Note.t) : Note.t :=
  Note.mk (Note.id m) (Note.workspace_id m) (Note.content m) (Note.summary m)
    (Note.memory_type m) (Note.category m) (Note.symbols m) (Note.tags m)
    (Note.importance m) (Note.importance_score m) (Note.source m)
    (Note.run_id m) (Note.metadata m) (Note.embedding m)
    (Note.content_tsvector m) (Note.archived m) None 0%Z.

(** A result row with its [created_at] column blanked out. *)
Definition without_created_at (r : HybridRow.t) : HybridRow.t :=
  HybridRow.mk (HybridRow.id r) (HybridRow.content r) (HybridRow.summary r)
    (HybridRow.memory_type r) (HybridRow.category r) (HybridRow.symbols r)
    (HybridRow.importance_score r) (HybridRow.bm25_score r)
    (HybridRow.vector_score r) (HybridRow.hybrid_score r) 0%Z.

(** [protection_level] of the record a result row refers to. *)
Definition protection_of (memory_notes : list Note.t) (i : uuid) : option Z :=
  match List.find (fun m => String.eqb (Note.id m) i) memory_notes with
  | Some m => Note.protection_level m
  | None => None
  end.

(** The eight values of the [MemoryType] type of the client. *)
Definition MemoryType : list string :=
  ["observation"; "lesson"; "rule"; "strategy"; "mistake"; "success";
   "warning"; "insight"].

(** [ProtectionLevel.IMMUTABLE = 0] *)
Definition IMMUTABLE : Z := 0.
Definition STANDARD : Z := 2.

(** What the filters of the search ask of a record. *)
Definition eligible (match_workspace_id : uuid) (min_importance : Q)
    (m : Note.t) : Prop :=
  Note.workspace_id m = match_workspace_id
  /\ (exists s, Note.importance_score m = Some s /\ min_importance <= s)
  /\ Note.archived m <> Some true.

(** The columns of a note that memory-update has no key for. *)
Definition columns_never_written (m : Note.t) :=
  (Note.id m, Note.workspace_id m, Note.summary m, Note.category m,
   Note.symbols m, Note.importance_score m, Note.source m, Note.run_id m,
   Note.metadata m, Note.content_tsvector m, Note.protection_level m,
   Note.created_at m).

(** [v !== undefined] *)
Definition is_defined (v : Js.value) : bool :=
  match v with Js.Undefined => false | _ => true end.

(** [v !== undefined && v !== null] *)
Definition has_value (v : Js.value) : bool :=
  match v with Js.Undefined | Js.Null => false | _ => true end.

(* ------------------------------------------------------------------ *)
(** ** Sample data *)

Module Sample.

(** Lexeme overlap, a stand-in for [@@] on one-word queries. *)
Definition ts_match (v : tsvector) (q : tsquery) : bool :=
  existsb (fun w => existsb (String.eqb w) v) q.

(** 0.1 for each query lexeme found in the document. *)
Definition ts_rank_cd (v : tsvector) (q : tsquery) : Q :=
  inject_Z (Z.of_nat (List.length (List.filter (fun w => existsb (String.eqb w) v) q)))
  * (1 # 10).

Definition plainto_tsquery (text : string) : tsquery := [text].

Fixpoint dot (a b : vector) : Q :=
  match a, b with
  | x :: a', y :: b' => x * y + dot a' b'
  | _, _ => 0
  end.

(** Cosine distance of two vectors of length one: [1 - a . b]. *)
Definition cosine_distance (a b : vector) : Q := 1 - dot a b.

Fixpoint digits (s : string) (acc : Z) : option Z :=
  match s with
  | EmptyString => Some acc
  | String.String c s' =>
      let n := nat_of_ascii c in
      if ((48 <=? n) && (n <=? 57))%nat
      then digits s' (10 * acc + Z.of_nat (n - 48))%Z
      else None
  end.

(** [StringToNumber] on the strings used below: the empty string is 0, a
    run of decimal digits is its value, a string with a letter is NaN. *)
Definition StringToNumber (s : string) : Js.num :=
  match digits s 0%Z with
  | Some z => Js.Fin (inject_Z z)
  | None => Js.NaN
  end.

Definition NumberToString (n : Js.num) : string :=
  match n with
  | Js.NaN => "NaN"
  | Js.PosInf => "Infinity"
  | Js.NegInf => "-Infinity"
  | Js.Fin _ => "0"
  end.

Definition generateEmbedding (text : string) : option vector := Some [1; 0].

Definition env : Env := mkEnv (Some "https://db.example") (Some "service-key").

Definition workspace : uuid := "550e8400-e29b-41d4-a716-446655440000".

Definition note (i : uuid) (text : string) (imp : Q) (e : vector)
    (arch : option bool) (prot : Z) (created : Z) : Note.t :=
  Note.mk i workspace text None (Some "rule") None None None (Some "high")
    (Some imp) "manual" None None (Some e) [text] arch (Some prot) created.

Definition standard_note : Note.t :=
  note "00000000-0000-4000-8000-00000000000a" "gamma" 1 [1; 0] (Some false) STANDARD 200.

Definition immutable_note : Note.t :=
  note "00000000-0000-4000-8000-00000000000b" "gamma" 1 [1; 0] (Some false) IMMUTABLE 100.

Definition archived_note : Note.t :=
  note "00000000-0000-4000-8000-00000000000c" "gamma" 1 [1; 0] (Some true) STANDARD 300.

Definition opposite_note : Note.t :=
  note "00000000-0000-4000-8000-00000000000d" "theta" 1 [-1; 0] None STANDARD 400.

Definition memory_notes : list Note.t :=
  [standard_note; immutable_note; archived_note; opposite_note].

(** The same table with the protection levels and the creation times of
    the first two notes exchanged. *)
Definition swapped_notes : list Note.t :=
  [note "00000000-0000-4000-8000-00000000000a" "gamma" 1 [1; 0] (Some false)
     IMMUTABLE 100;
   note "00000000-0000-4000-8000-00000000000b" "gamma" 1 [1; 0] (Some false)
     STANDARD 200;
   archived_note; opposite_note].

(** Fifty-one active notes of one workspace, all close to the query. *)
Definition many_notes : list Note.t :=
  List.map
    (fun k =>
       note (pretty.pretty_nat k) "gamma" 1 [1; 0] (Some false) STANDARD (Z.of_nat k))
    (seq 0 51).

Definition hybrid (text : string) (q : vector) (limit_count : Z)
    (table : list Note.t) : Sql.result HybridRow.t :=
  hybrid_search_memories plainto_tsquery ts_match ts_rank_cd cosine_distance
    text q workspace limit_count default_bm25_weight default_vector_weight
    default_min_importance table.

(** The search for "gamma" near the embedding (1, 0). *)
Definition gamma_vector_scores : list Scored.t :=
  rows_of
    (vector_scores cosine_distance [1; 0] workspace 10 default_min_importance
       memory_notes).

Definition gamma_rows : list HybridRow.t :=
  rows_of (hybrid "gamma" [1; 0] 10 memory_notes).

Definition search_request (lim : Js.value) : Request MemorySearch.Fields :=
  mkRequest "POST"
    (Json (MemorySearch.mkFields (Js.String workspace) (Js.String "gamma") lim)).

Definition search (lim : Js.value) (table : list Note.t)
  : Response MemorySearch.Body :=
  MemorySearch.serve StringToNumber NumberToString cosine_distance
    generateEmbedding env table (search_request lim).

Definition update_request (i : uuid) (content memoryType archived : Js.value)
  : Request MemoryUpdate.Fields :=
  mkRequest "POST"
    (Json (MemoryUpdate.mkFields (Js.String i) content memoryType
             Js.Undefined Js.Undefined archived)).

Definition update := MemoryUpdate.serve NumberToString generateEmbedding env.
Definition update_earlier :=
  MemoryUpdate.serve_earlier generateEmbedding env.

(** A recall engine that always rejects, and one that always resolves. *)
Definition failing_engine : MemoryHandlers.RecallEngine string :=
  MemoryHandlers.mkEngine string
    (fun _ _ _ => Throws (mkError "SQLITE_CANTOPEN: unable to open database file")).

Definition working_engine : MemoryHandlers.RecallEngine string :=
  MemoryHandlers.mkEngine string
    (fun q _ _ =>
       Returns (MemoryHandlers.mkResult string ["Never short gamma"] 1 12 false q None)).

End Sample.

(* ------------------------------------------------------------------ *)
(** * Facts about the SQL layer *)

Section OrderBy.
Context {A : Type}.
Variable before : A -> A -> bool.

Lemma insert_by_perm (x : A) (l : list A) :
  Permutation (x :: l) (Sql.insert_by before x l).
Proof.
  induction l as [|y l IH]; simpl.
  - apply Permutation_refl.
  - destruct (before x y).
    + apply Permutation_refl.
    + eapply perm_trans; [apply perm_swap|].
      apply perm_skip, IH.
Qed.

Lemma order_by_perm (l : list A) : Permutation l (Sql.order_by before l).
Proof.
  induction l as [|x l IH]; simpl.
  - apply perm_nil.
  - eapply perm_trans; [apply perm_skip, IH|apply insert_by_perm].
Qed.

Lemma order_by_In (x : A) (l : list A) :
  In x (Sql.order_by before l) <-> In x l.
Proof.
  split; intro H.
  - eapply Permutation_in; [apply Permutation_sym, order_by_perm|exact H].
  - eapply Permutation_in; [apply order_by_perm|exact H].
Qed.

Lemma order_by_length (l : list A) :
  List.length (Sql.order_by before l) = List.length l.
Proof. symmetry. apply Permutation_length, order_by_perm. Qed.

Hypothesis before_total : forall x y, before x y = false -> before y x = true.
Hypothesis before_trans :
  forall x y z, before x y = true -> before y z = true -> before x z = true.

Let R (x y : A) : Prop := before x y = true.

Lemma insert_by_sorted (x : A) (l : list A) :
  StronglySorted R l -> StronglySorted R (Sql.insert_by before x l).
Proof.
  induction 1 as [|y l Hl IH Hy]; simpl.
  - constructor; [constructor|constructor].
  - destruct (before x y) eqn:Hxy.
    + constructor.
      * constructor; assumption.
      * constructor; [exact Hxy|].
        apply List.Forall_forall. intros z Hz.
        apply (before_trans x y z Hxy).
        rewrite List.Forall_forall in Hy. apply Hy, Hz.
    + constructor; [exact IH|].
      apply List.Forall_forall. intros z Hz.
      apply (Permutation_in z (Permutation_sym (insert_by_perm x l))) in Hz.
      destruct Hz as [<-|Hz].
      * apply before_total, Hxy.
      * rewrite List.Forall_forall in Hy. apply Hy, Hz.
Qed.

Lemma order_by_sorted (l : list A) : StronglySorted R (Sql.order_by before l).
Proof.
  induction l as [|x l IH]; simpl.
  - constructor.
  - apply insert_by_sorted, IH.
Qed.
End OrderBy.

Lemma In_firstn {A} (n : nat) (l : list A) (x : A) :
  In x (firstn n l) -> In x l.
Proof.
  revert l. induction n as [|n IH]; intros [|y l]; simpl; try tauto.
  intros [H|H]; [left; exact H|right; apply IH, H].
Qed.

Lemma StronglySorted_firstn {A} (R : A -> A -> Prop) (n : nat) (l : list A) :
  StronglySorted R l -> StronglySorted R (firstn n l).
Proof.
  revert l. induction n as [|n IH]; intros l Hl; [constructor|].
  destruct Hl as [|x l Hl Hx]; simpl; constructor.
  - apply IH, Hl.
  - apply List.Forall_forall. intros y Hy. rewrite List.Forall_forall in Hx.
    apply Hx. eapply In_firstn, Hy.
Qed.

Lemma NoDup_firstn {A} (n : nat) (l : list A) :
  List.NoDup l -> List.NoDup (firstn n l).
Proof.
  revert l. induction n as [|n IH]; intros l Hl; [constructor|].
  destruct Hl as [|x l Hx Hl]; simpl; constructor.
  - intro H. apply Hx. eapply In_firstn, H.
  - apply IH, Hl.
Qed.

Lemma limit_rows {A} (n : Z) (l rows : list A) :
  Sql.limit n l = Sql.Rows rows ->
  (0 <= n)%Z /\ rows = firstn (Z.to_nat n) l.
Proof.
  unfold Sql.limit. destruct (n <? 0)%Z eqn:Hn; [discriminate|].
  intros [= <-]. split; [apply Z.ltb_ge, Hn|reflexivity].
Qed.

Lemma limit_ok {A} (n : Z) (l : list A) :
  (0 <= n)%Z -> Sql.limit n l = Sql.Rows (firstn (Z.to_nat n) l).
Proof.
  intro Hn. unfold Sql.limit.
  destruct (n <? 0)%Z eqn:E; [apply Z.ltb_lt in E; lia|reflexivity].
Qed.

Lemma desc_nulls_first_total (x y : option Q) :
  Sql.desc_nulls_first x y = false -> Sql.desc_nulls_first y x = true.
Proof.
  destruct x as [a|], y as [b|]; simpl; try congruence.
  intro H. apply Qle_bool_iff.
  destruct (Qlt_le_dec a b) as [Hlt|Hle].
  - apply Qlt_le_weak, Hlt.
  - apply Qle_bool_iff in Hle. congruence.
Qed.

Lemma desc_nulls_first_trans (x y z : option Q) :
  Sql.desc_nulls_first x y = true -> Sql.desc_nulls_first y z = true ->
  Sql.desc_nulls_first x z = true.
Proof.
  destruct x as [a|], y as [b|], z as [c|]; simpl; try congruence.
  rewrite !Qle_bool_iff. intros H1 H2. eapply Qle_trans; eassumption.
Qed.

Lemma holds_and3 (a b : Sql.tv) :
  Sql.holds (Sql.and3 a b) = true <-> Sql.holds a = true /\ Sql.holds b = true.
Proof.
  destruct a as [[|]|], b as [[|]|]; simpl; intuition congruence.
Qed.

Lemma holds_not_archived (a : option bool) :
  Sql.holds (Sql.or3 (Sql.is_null a) (Sql.eq_bool a (Some false))) = true <->
  a <> Some true.
Proof.
  destruct a as [[|]|]; simpl; intuition congruence.
Qed.

Lemma holds_ge_real (x : option Q) (y : Q) :
  Sql.holds (Sql.ge_real x (Some y)) = true <-> exists s, x = Some s /\ y <= s.
Proof.
  destruct x as [s|]; simpl.
  - destruct (Qle_bool y s) eqn:E; split.
    + intros _. exists s. split; [reflexivity|apply Qle_bool_iff, E].
    + reflexivity.
    + discriminate.
    + intros (s' & [= <-] & Hle). apply Qle_bool_iff in Hle. congruence.
  - split; [discriminate|]. intros (s & Hs & _). discriminate.
Qed.

(* ------------------------------------------------------------------ *)
(** * Facts about [hybrid_search_memories] *)

Lemma find_by_key {B} (key : B -> string) (l : list B) (x : B) :
  List.NoDup (List.map key l) -> In x l ->
  List.find (fun r => String.eqb (key r) (key x)) l = Some x.
Proof.
  induction l as [|a l IH]; simpl; [tauto|].
  intros Hnd Hin. inversion Hnd as [|k ks Hk Hks]; subst.
  destruct Hin as [->|Hin].
  - rewrite String.eqb_refl. reflexivity.
  - destruct (String.eqb (key a) (key x)) eqn:E.
    + apply String.eqb_eq in E. exfalso. apply Hk. rewrite E.
      apply in_map, Hin.
    + apply IH; assumption.
Qed.

Lemma find_no_key {B} (key : B -> string) (l : list B) (i : string) :
  (forall x, In x l -> key x <> i) ->
  List.find (fun r => String.eqb (key r) i) l = None.
Proof.
  induction l as [|a l IH]; simpl; [reflexivity|].
  intro H. destruct (String.eqb (key a) i) eqn:E.
  - apply String.eqb_eq in E. exfalso. apply (H a); [left; reflexivity|exact E].
  - apply IH. intros x Hx. apply H. right. exact Hx.
Qed.

Lemma has_score_In (l : list Scored.t) (x : Scored.t) :
  In x l -> has_score l (Scored.id x) = true.
Proof.
  intro H. unfold has_score. apply existsb_exists.
  exists x. split; [exact H|apply String.eqb_refl].
Qed.

Lemma has_score_inv (l : list Scored.t) (i : uuid) :
  has_score l i = true -> exists x, In x l /\ Scored.id x = i.
Proof.
  unfold has_score. intro H. apply existsb_exists in H.
  destruct H as (x & Hx & E). exists x. split; [exact Hx|].
  apply String.eqb_eq, E.
Qed.

Lemma score_of_In (l : list Scored.t) (x : Scored.t) :
  List.NoDup (List.map Scored.id l) -> In x l ->
  score_of l (Scored.id x) = Sql.coalesce (Scored.score x) 0.
Proof.
  intros Hnd Hin. unfold score_of.
  rewrite (find_by_key Scored.id l x Hnd Hin). reflexivity.
Qed.

Lemma score_of_absent (l : list Scored.t) (i : uuid) :
  (forall x, In x l -> Scored.id x <> i) -> score_of l i = 0.
Proof.
  intro H. unfold score_of. rewrite (find_no_key Scored.id l i H). reflexivity.
Qed.

Lemma NoDup_map_filter {B C} (f : B -> C) (p : B -> bool) (l : list B) :
  List.NoDup (List.map f l) -> List.NoDup (List.map f (List.filter p l)).
Proof.
  induction l as [|a l IH]; simpl; intro H; [constructor|].
  inversion H as [|k ks Hk Hks]; subst.
  destruct (p a); simpl; [constructor|]; auto.
  intro Hin. apply Hk. apply in_map_iff in Hin.
  destruct Hin as (y & Hy & Hin). apply filter_In in Hin.
  rewrite <- Hy. apply in_map, Hin.
Qed.

Lemma full_outer_join_In (bs vs : list Scored.t) (ob ov : option Scored.t) :
  In (ob, ov) (full_outer_join bs vs) ->
  (exists b, ob = Some b /\ In b bs /\
     ((ov = None /\ forall v, In v vs -> Scored.id v <> Scored.id b)
      \/ exists v, ov = Some v /\ In v vs /\ Scored.id v = Scored.id b))
  \/ (ob = None /\ exists v, ov = Some v /\ In v vs /\
        forall b, In b bs -> Scored.id b <> Scored.id v).
Proof.
  unfold full_outer_join. intro H. apply in_app_or in H.
  destruct H as [H|H].
  - left. apply in_flat_map in H. destruct H as (b & Hb & H).
    destruct (List.filter (fun v => String.eqb (Scored.id b) (Scored.id v)) vs)
      as [|v0 ms] eqn:E.
    + destruct H as [[= <- <-]|[]]. exists b. split; [reflexivity|].
      split; [exact Hb|]. left. split; [reflexivity|].
      intros v Hv Heq.
      assert (Hin : In v (List.filter
                (fun v => String.eqb (Scored.id b) (Scored.id v)) vs)).
      { apply filter_In. split; [exact Hv|]. apply String.eqb_eq. congruence. }
      rewrite E in Hin. destruct Hin.
    + apply in_map_iff in H. destruct H as (v & [= <- <-] & Hv).
      rewrite <- E in Hv. apply filter_In in Hv. destruct Hv as [Hv Heq].
      apply String.eqb_eq in Heq.
      exists b. split; [reflexivity|]. split; [exact Hb|].
      right. exists v. split; [reflexivity|]. split; [exact Hv|congruence].
  - right. apply in_map_iff in H. destruct H as (v & [= <- <-] & Hv).
    apply filter_In in Hv. destruct Hv as [Hv Hno].
    split; [reflexivity|]. exists v. split; [reflexivity|]. split; [exact Hv|].
    intros b Hb Heq. apply negb_true_iff in Hno.
    assert (Hex : existsb (fun b => String.eqb (Scored.id b) (Scored.id v)) bs = true).
    { apply existsb_exists. exists b. split; [exact Hb|].
      apply String.eqb_eq, Heq. }
    congruence.
Qed.

Lemma combined_In (bw vw : Q) (bs vs : list Scored.t) (c : Combined.t) :
  List.NoDup (List.map Scored.id bs) -> List.NoDup (List.map Scored.id vs) ->
  In c (combined bw vw bs vs) ->
  exists i,
    Combined.memory_id c = Some i
    /\ (has_score bs i = true \/ has_score vs i = true)
    /\ Combined.weighted_bm25 c = score_of bs i * bw
    /\ Combined.weighted_vector c = score_of vs i * vw.
Proof.
  intros Hbs Hvs H. unfold combined in H. apply in_map_iff in H.
  destruct H as ([ob ov] & <- & H). apply full_outer_join_In in H.
  destruct H as [(b & -> & Hb & [[-> Hno]|(v & -> & Hv & Heq)])
                |(-> & v & -> & Hv & Hno)]; simpl.
  - exists (Scored.id b). split; [reflexivity|].
    split; [left; apply has_score_In, Hb|].
    rewrite (score_of_In bs b Hbs Hb), (score_of_absent vs (Scored.id b) Hno).
    split; reflexivity.
  - exists (Scored.id b). split; [reflexivity|].
    split; [left; apply has_score_In, Hb|].
    rewrite (score_of_In bs b Hbs Hb), <- Heq, (score_of_In vs v Hvs Hv).
    split; reflexivity.
  - exists (Scored.id v). split; [reflexivity|].
    split; [right; apply has_score_In, Hv|].
    rewrite (score_of_absent bs (Scored.id v) Hno), (score_of_In vs v Hvs Hv).
    split; reflexivity.
Qed.

Lemma NoDup_key_inj {B} (key : B -> string) (l : list B) (x y : B) :
  List.NoDup (List.map key l) -> In x l -> In y l -> key x = key y -> x = y.
Proof.
  induction l as [|a l IH]; simpl; [tauto|].
  intros Hnd Hx Hy E. inversion Hnd as [|k ks Hk Hks]; subst.
  destruct Hx as [->|Hx], Hy as [->|Hy]; auto.
  - exfalso. apply Hk. rewrite E. apply in_map, Hy.
  - exfalso. apply Hk. rewrite <- E. apply in_map, Hx.
Qed.

Lemma has_score_false (l : list Scored.t) (i : uuid) :
  has_score l i = false -> score_of l i = 0.
Proof.
  intro H. apply score_of_absent. intros x Hx E.
  rewrite <- E, (has_score_In l x Hx) in H. discriminate.
Qed.

Section HybridFacts.
Variable plainto_tsquery : string -> tsquery.
Variable ts_match : tsvector -> tsquery -> bool.
Variable ts_rank_cd : tsvector -> tsquery -> Q.
Variable cosine_distance : vector -> vector -> Q.
Variable query_text : string.
Variable query_embedding : vector.
Variable match_workspace_id : uuid.
Variable limit_count : Z.
Variable bm25_weight vector_weight min_importance : Q.
Variable memory_notes : list Note.t.

Let bs : list Scored.t :=
  bm25_scores plainto_tsquery ts_match ts_rank_cd query_text
    match_workspace_id min_importance memory_notes.
Let vres : Sql.result Scored.t :=
  vector_scores cosine_distance query_embedding match_workspace_id
    limit_count min_importance memory_notes.
Let search : Sql.result HybridRow.t :=
  hybrid_search_memories plainto_tsquery ts_match ts_rank_cd cosine_distance
    query_text query_embedding match_workspace_id limit_count bm25_weight
    vector_weight min_importance memory_notes.

Lemma bm25_where_eligible (m : Note.t) :
  Sql.holds
    (bm25_where plainto_tsquery ts_match query_text match_workspace_id
       min_importance m) = true ->
  eligible match_workspace_id min_importance m.
Proof.
  unfold bm25_where. rewrite !holds_and3.
  intros [[[Hws _] Himp] Harch]. repeat split.
  - simpl in Hws. destruct (String.eqb _ _) eqn:E; [|discriminate].
    apply String.eqb_eq, E.
  - apply holds_ge_real, Himp.
  - apply holds_not_archived, Harch.
Qed.

Lemma vector_where_eligible (m : Note.t) :
  Sql.holds (vector_where match_workspace_id min_importance m) = true ->
  eligible match_workspace_id min_importance m
  /\ exists e, Note.embedding m = Some e.
Proof.
  unfold vector_where. rewrite !holds_and3.
  intros [[[Hws Hemb] Himp] Harch]. repeat split.
  - simpl in Hws. destruct (String.eqb _ _) eqn:E; [|discriminate].
    apply String.eqb_eq, E.
  - apply holds_ge_real, Himp.
  - apply holds_not_archived, Harch.
  - destruct (Note.embedding m) as [e|]; [exists e; reflexivity|discriminate].
Qed.

Lemma bm25_scores_In (b : Scored.t) :
  In b bs ->
  exists m, In m memory_notes
    /\ eligible match_workspace_id min_importance m
    /\ Scored.id b = Note.id m
    /\ Scored.score b
       = Some (ts_rank_cd (Note.content_tsvector m) (plainto_tsquery query_text)).
Proof.
  unfold bs, bm25_scores. intro H. apply in_map_iff in H.
  destruct H as (m & <- & Hm). apply filter_In in Hm. destruct Hm as [Hm Hw].
  exists m. split; [exact Hm|]. split; [apply bm25_where_eligible, Hw|].
  split; reflexivity.
Qed.

Lemma vector_scores_In (vs : list Scored.t) (v : Scored.t) :
  vres = Sql.Rows vs -> In v vs ->
  exists m e, In m memory_notes
    /\ eligible match_workspace_id min_importance m
    /\ Note.embedding m = Some e
    /\ Scored.id v = Note.id m
    /\ Scored.score v = Some (1 - cosine_distance e query_embedding).
Proof.
  unfold vres, vector_scores.
  destruct (int4_mul limit_count 2) as [n|]; [|discriminate].
  destruct (Sql.limit n _) as [ms|] eqn:E; [|discriminate].
  intros [= <-] H. apply in_map_iff in H. destruct H as (m & <- & Hm).
  apply limit_rows in E. destruct E as [_ ->].
  apply In_firstn, order_by_In, filter_In in Hm. destruct Hm as [Hm Hw].
  apply vector_where_eligible in Hw. destruct Hw as [Hel [e He]].
  exists m, e. repeat split; try assumption; try apply Hel.
  simpl. unfold distance. rewrite He. reflexivity.
Qed.

Hypothesis pk : primary_key memory_notes.

Lemma bm25_scores_NoDup : List.NoDup (List.map Scored.id bs).
Proof.
  unfold bs, bm25_scores. rewrite map_map. simpl.
  apply NoDup_map_filter, pk.
Qed.

Lemma vector_scores_NoDup (vs : list Scored.t) :
  vres = Sql.Rows vs -> List.NoDup (List.map Scored.id vs).
Proof.
  unfold vres, vector_scores.
  destruct (int4_mul limit_count 2) as [n|]; [|discriminate].
  destruct (Sql.limit n _) as [ms|] eqn:E; [|discriminate].
  intros [= <-]. rewrite map_map. simpl.
  apply limit_rows in E. destruct E as [_ ->].
  rewrite <- firstn_map. apply NoDup_firstn.
  eapply Permutation_NoDup.
  - apply Permutation_map, order_by_perm.
  - apply NoDup_map_filter, pk.
Qed.

(** Where a returned row comes from. *)
Lemma hybrid_row_origin (rows : list HybridRow.t) (r : HybridRow.t) :
  search = Sql.Rows rows -> In r rows ->
  exists vs c m,
    vres = Sql.Rows vs
    /\ In m memory_notes
    /\ r = select_row bm25_weight vector_weight c m
    /\ eligible match_workspace_id min_importance m
    /\ (has_score bs (Note.id m) = true \/ has_score vs (Note.id m) = true)
    /\ Combined.weighted_bm25 c = score_of bs (Note.id m) * bm25_weight
    /\ Combined.weighted_vector c = score_of vs (Note.id m) * vector_weight.
Proof.
  unfold search, hybrid_search_memories. fold vres. fold bs.
  destruct vres as [vs|] eqn:Ev; [|discriminate].
  intros E Hr. apply limit_rows in E. destruct E as [_ ->].
  apply In_firstn, order_by_In in Hr.
  unfold joined in Hr. apply in_flat_map in Hr.
  destruct Hr as (c & Hc & Hr). apply in_map_iff in Hr.
  destruct Hr as (m & <- & Hm). apply filter_In in Hm.
  destruct Hm as [Hm Hid].
  apply combined_In in Hc;
    [|apply bm25_scores_NoDup|apply vector_scores_NoDup, Ev].
  destruct Hc as (i & Hi & Hsc & Hb & Hv).
  rewrite Hi in Hid. simpl in Hid.
  destruct (String.eqb (Note.id m) i) eqn:Ei; [|discriminate].
  apply String.eqb_eq in Ei. subst i.
  assert (Hel : eligible match_workspace_id min_importance m).
  { destruct Hsc as [H|H]; apply has_score_inv in H;
      destruct H as (x & Hx & Ex).
    - apply bm25_scores_In in Hx. destruct Hx as (m' & Hm' & Hel & Eid & _).
      assert (m' = m) as ->; [|exact Hel].
      apply (NoDup_key_inj Note.id memory_notes); try assumption. congruence.
    - apply (vector_scores_In vs x Ev) in Hx.
      destruct Hx as (m' & e & Hm' & Hel & _ & Eid & _).
      assert (m' = m) as ->; [|exact Hel].
      apply (NoDup_key_inj Note.id memory_notes); try assumption. congruence. }
  exists vs, c, m. auto 10.
Qed.
End HybridFacts.

Section HybridShape.
Variable plainto_tsquery : string -> tsquery.
Variable ts_match : tsvector -> tsquery -> bool.
Variable ts_rank_cd : tsvector -> tsquery -> Q.
Variable cosine_distance : vector -> vector -> Q.
Variable query_text : string.
Variable query_embedding : vector.
Variable match_workspace_id : uuid.
Variable limit_count : Z.
Variable bm25_weight vector_weight min_importance : Q.
Variable memory_notes : list Note.t.

Let bs : list Scored.t :=
  bm25_scores plainto_tsquery ts_match ts_rank_cd query_text
    match_workspace_id min_importance memory_notes.
Let vres : Sql.result Scored.t :=
  vector_scores cosine_distance query_embedding match_workspace_id
    limit_count min_importance memory_notes.
Let search : Sql.result HybridRow.t :=
  hybrid_search_memories plainto_tsquery ts_match ts_rank_cd cosine_distance
    query_text query_embedding match_workspace_id limit_count bm25_weight
    vector_weight min_importance memory_notes.

Lemma hybrid_rows_shape (rows : list HybridRow.t) :
  search = Sql.Rows rows ->
  exists vs,
    vres = Sql.Rows vs /\ (0 <= limit_count)%Z
    /\ rows = firstn (Z.to_nat limit_count)
                (Sql.order_by by_hybrid_score_desc
                   (joined bm25_weight vector_weight memory_notes
                      (combined bm25_weight vector_weight bs vs))).
Proof.
  unfold search, hybrid_search_memories. fold vres. fold bs.
  destruct vres as [vs|]; [|discriminate].
  intro E. apply limit_rows in E. destruct E as [Hn ->].
  exists vs. auto.
Qed.

Lemma hybrid_sorted (rows : list HybridRow.t) :
  search = Sql.Rows rows -> sorted_by_hybrid_score_desc rows.
Proof.
  intro E. apply hybrid_rows_shape in E. destruct E as (vs & _ & _ & ->).
  apply StronglySorted_firstn.
  apply (order_by_sorted by_hybrid_score_desc).
  - intros x y. apply desc_nulls_first_total.
  - intros x y z. apply desc_nulls_first_trans.
Qed.

Lemma hybrid_truncated (rows : list HybridRow.t) :
  search = Sql.Rows rows -> (Z.of_nat (List.length rows) <= limit_count)%Z.
Proof.
  intro E. apply hybrid_rows_shape in E. destruct E as (vs & _ & Hn & ->).
  pose proof (firstn_le_length (Z.to_nat limit_count)
    (Sql.order_by by_hybrid_score_desc
       (joined bm25_weight vector_weight memory_notes
          (combined bm25_weight vector_weight bs vs)))) as Hlen.
  lia.
Qed.

Lemma hybrid_returns :
  (0 <= limit_count <= 1073741823)%Z -> exists rows, search = Sql.Rows rows.
Proof.
  intros [Hlo Hhi]. unfold search, hybrid_search_memories, vector_scores.
  unfold int4_mul.
  replace ((-2147483648 <=? limit_count * 2) && (limit_count * 2 <=? 2147483647))%Z
    with true
    by (symmetry; apply andb_true_iff; split; apply Z.leb_le; lia).
  rewrite limit_ok by lia. rewrite limit_ok by lia.
  eexists. reflexivity.
Qed.

Hypothesis pk : primary_key memory_notes.

Lemma bm25_score_raw (m : Note.t) :
  In m memory_notes -> has_score bs (Note.id m) = true ->
  score_of bs (Note.id m)
  = ts_rank_cd (Note.content_tsvector m) (plainto_tsquery query_text).
Proof.
  intros Hm H. apply has_score_inv in H. destruct H as (b & Hb & Eb).
  rewrite <- Eb.
  rewrite (score_of_In bs b); [|apply bm25_scores_NoDup, pk|exact Hb].
  apply bm25_scores_In in Hb. destruct Hb as (m' & Hm' & _ & Eid & ->).
  assert (m' = m) as ->; [|reflexivity].
  apply (NoDup_key_inj Note.id memory_notes); try assumption. congruence.
Qed.

Lemma vector_score_raw (vs : list Scored.t) (m : Note.t) :
  vres = Sql.Rows vs -> In m memory_notes ->
  has_score vs (Note.id m) = true ->
  exists e, Note.embedding m = Some e
    /\ score_of vs (Note.id m) = 1 - cosine_distance e query_embedding.
Proof.
  intros Ev Hm H. apply has_score_inv in H. destruct H as (v & Hv & Eid).
  rewrite <- Eid.
  rewrite (score_of_In vs v);
    [|apply (vector_scores_NoDup cosine_distance query_embedding
               match_workspace_id limit_count min_importance memory_notes pk),
        Ev
     |exact Hv].
  apply (vector_scores_In cosine_distance query_embedding match_workspace_id
           limit_count min_importance memory_notes vs v Ev) in Hv.
  destruct Hv as (m' & e & Hm' & _ & He & Eid' & ->).
  assert (m' = m) as ->.
  { apply (NoDup_key_inj Note.id memory_notes); try assumption. congruence. }
  exists e. split; [exact He|reflexivity].
Qed.
End HybridShape.

Lemma sample_primary_key : primary_key Sample.memory_notes.
Proof.
  unfold primary_key. simpl.
  repeat (constructor; [simpl; intuition discriminate|]). constructor.
Qed.

Lemma sample_gamma_rows :
  Sample.hybrid "gamma" [1; 0] 10 Sample.memory_notes
  = Sql.Rows Sample.gamma_rows.
Proof. reflexivity. Qed.

(* ------------------------------------------------------------------ *)
(** * What [hybrid_search_memories] returns *)








(* ------------------------------------------------------------------ *)
(** * Facts about [search_memory_notes] and the memory-search endpoint *)

Lemma holds_eq_false (a : option bool) :
  Sql.holds (Sql.eq_bool a (Some false)) = true <-> a = Some false.
Proof. destruct a as [[|]|]; simpl; intuition congruence. Qed.

Lemma search_memory_notes_In
    (cosine_distance : vector -> vector -> Q) (query_embedding : vector)
    (match_workspace_id : uuid) (match_threshold : Q) (match_count : option Z)
    (memory_notes : list Note.t) (rows : list SearchRow.t) (r : SearchRow.t) :
  search_memory_notes cosine_distance query_embedding match_workspace_id
    match_threshold match_count memory_notes = Sql.Rows rows ->
  In r rows ->
  exists m, In m memory_notes
    /\ r = notes_row cosine_distance query_embedding m
    /\ Note.workspace_id m = match_workspace_id
    /\ Note.archived m = Some false.
Proof.
  unfold search_memory_notes. intros E Hr.
  assert (Hin : exists m,
             In m (List.filter
                     (fun m => Sql.holds
                                 (notes_where cosine_distance query_embedding
                                    match_workspace_id match_threshold m))
                     memory_notes)
             /\ r = notes_row cosine_distance query_embedding m).
  { destruct match_count as [n|].
    - destruct (Sql.limit n _) as [ms|] eqn:El; [|discriminate].
      injection E as <-. apply limit_rows in El. destruct El as [_ ->].
      apply in_map_iff in Hr. destruct Hr as (m & <- & Hm).
      apply In_firstn, order_by_In in Hm. exists m. auto.
    - injection E as <-. apply in_map_iff in Hr. destruct Hr as (m & <- & Hm).
      apply order_by_In in Hm. exists m. auto. }
  destruct Hin as (m & Hm & ->). apply filter_In in Hm. destruct Hm as [Hm Hw].
  unfold notes_where in Hw. rewrite !holds_and3 in Hw.
  destruct Hw as [[[Hws _] Harch] _].
  exists m. split; [exact Hm|]. split; [reflexivity|]. split.
  - simpl in Hws. destruct (String.eqb _ _) eqn:Ews; [|discriminate].
    apply String.eqb_eq, Ews.
  - apply holds_eq_false, Harch.
Qed.

Lemma memory_search_results_In
    (StringToNumber : string -> Js.num) (NumberToString : Js.num -> string)
    (cosine_distance : vector -> vector -> Q)
    (generateEmbedding : string -> option vector)
    (env : Env) (memory_notes : list Note.t)
    (req : Request MemorySearch.Fields)
    (rows : list SearchRow.t) (r : SearchRow.t) :
  MemorySearch.results
    (body (MemorySearch.serve StringToNumber NumberToString cosine_distance
             generateEmbedding env memory_notes req)) = Some rows ->
  In r rows ->
  exists m, In m memory_notes /\ SearchRow.id r = Note.id m
    /\ Note.archived m = Some false.
Proof.
  unfold MemorySearch.serve.
  repeat
    match goal with
    | |- context [if ?c then _ else _] => destruct c
    | |- context [match ?x with _ => _ end] => destruct x eqn:?
    end;
    simpl; try discriminate; try (intros [= <-] []).
  intros [= <-] Hr. apply filter_In in Hr. destruct Hr as [Hr _].
  match goal with
  | H : search_memory_notes _ _ _ _ _ _ = Sql.Rows _ |- _ =>
      destruct (search_memory_notes_In _ _ _ _ _ _ _ _ H Hr)
        as (m & Hm & -> & _ & Harch)
  end.
  exists m. auto.
Qed.



(* ------------------------------------------------------------------ *)
(** * Order of the rows of [hybrid_search_memories] *)

Lemma filter_map_comm {A B} (f : A -> B) (p : B -> bool) (l : list A) :
  List.filter p (List.map f l) = List.map f (List.filter (fun x => p (f x)) l).
Proof.
  induction l as [|a l IH]; simpl; [reflexivity|].
  destruct (p (f a)); simpl; rewrite IH; reflexivity.
Qed.

Lemma insert_by_map {A B} (f : A -> B) (before : B -> B -> bool)
    (x : A) (l : list A) :
  Sql.insert_by before (f x) (List.map f l)
  = List.map f (Sql.insert_by (fun a b => before (f a) (f b)) x l).
Proof.
  induction l as [|y l IH]; simpl; [reflexivity|].
  destruct (before (f x) (f y)); simpl; [reflexivity|].
  rewrite IH. reflexivity.
Qed.

Lemma order_by_map {A B} (f : A -> B) (before : B -> B -> bool) (l : list A) :
  Sql.order_by before (List.map f l)
  = List.map f (Sql.order_by (fun a b => before (f a) (f b)) l).
Proof.
  induction l as [|x l IH]; simpl; [reflexivity|].
  rewrite IH. apply insert_by_map.
Qed.

Section TieBreakColumns.
Variable plainto_tsquery : string -> tsquery.
Variable ts_match : tsvector -> tsquery -> bool.
Variable ts_rank_cd : tsvector -> tsquery -> Q.
Variable cosine_distance : vector -> vector -> Q.
Variable query_text : string.
Variable query_embedding : vector.
Variable match_workspace_id : uuid.
Variable limit_count : Z.
Variable bm25_weight vector_weight min_importance : Q.

Let blank : list Note.t -> list Note.t := List.map without_tie_break_columns.

Lemma bm25_scores_blank (t : list Note.t) :
  bm25_scores plainto_tsquery ts_match ts_rank_cd query_text
    match_workspace_id min_importance (blank t)
  = bm25_scores plainto_tsquery ts_match ts_rank_cd query_text
      match_workspace_id min_importance t.
Proof.
  unfold blank, bm25_scores. rewrite filter_map_comm, map_map. reflexivity.
Qed.

Lemma vector_scores_blank (t : list Note.t) :
  vector_scores cosine_distance query_embedding match_workspace_id
    limit_count min_importance (blank t)
  = vector_scores cosine_distance query_embedding match_workspace_id
      limit_count min_importance t.
Proof.
  unfold blank, vector_scores.
  destruct (int4_mul limit_count 2) as [n|]; [|reflexivity].
  unfold Sql.limit. destruct (n <? 0)%Z; [reflexivity|].
  rewrite filter_map_comm, order_by_map, firstn_map, map_map. reflexivity.
Qed.

Lemma joined_blank (t : list Note.t) (cs : list Combined.t) :
  joined bm25_weight vector_weight (blank t) cs
  = List.map without_created_at (joined bm25_weight vector_weight t cs).
Proof.
  unfold blank, joined. induction cs as [|c cs IH]; [reflexivity|].
  cbn [flat_map]. rewrite IH, map_app, filter_map_comm, !map_map. reflexivity.
Qed.

Lemma hybrid_search_blank (t : list Note.t) :
  hybrid_search_memories plainto_tsquery ts_match ts_rank_cd cosine_distance
    query_text query_embedding match_workspace_id limit_count bm25_weight
    vector_weight min_importance (blank t)
  = match
      hybrid_search_memories plainto_tsquery ts_match ts_rank_cd
        cosine_distance query_text query_embedding match_workspace_id
        limit_count bm25_weight vector_weight min_importance t
    with
    | Sql.Rows rows => Sql.Rows (List.map without_created_at rows)
    | Sql.Raise e => Sql.Raise e
    end.
Proof.
  unfold hybrid_search_memories.
  rewrite vector_scores_blank, bm25_scores_blank.
  destruct (vector_scores _ _ _ _ _ t) as [vs|]; [|reflexivity].
  rewrite joined_blank. unfold Sql.limit.
  destruct (limit_count <? 0)%Z; [reflexivity|].
  rewrite order_by_map, firstn_map. reflexivity.
Qed.
End TieBreakColumns.




(* ------------------------------------------------------------------ *)
(** * The cap of the memory-search endpoint *)

Lemma match_count_never_above_50
    (StringToNumber : string -> Js.num) (NumberToString : Js.num -> string)
    (lim : Js.value) :
  Js.gt (MemorySearch.match_count StringToNumber NumberToString lim) (Js.Fin 50)
  = false.
Proof.
  unfold MemorySearch.match_count.
  destruct (Js.ToNumber StringToNumber NumberToString lim) as [|q| |]; simpl;
    try reflexivity.
  destruct (Qle_bool q 50) eqn:E; simpl; [rewrite E|]; reflexivity.
Qed.

Lemma match_count_of_number
    (StringToNumber : string -> Js.num) (NumberToString : Js.num -> string)
    (q : Q) :
  MemorySearch.match_count StringToNumber NumberToString (Js.Number (Js.Fin q))
  = Js.Fin (if Qle_bool q 50 then q else 50).
Proof.
  unfold MemorySearch.match_count. simpl. destruct (Qle_bool q 50); reflexivity.
Qed.

Lemma rpc_integer_match_count_le_50
    (StringToNumber : string -> Js.num) (NumberToString : Js.num -> string)
    (lim : Js.value) (n : Z) :
  rpc_integer (MemorySearch.match_count StringToNumber NumberToString lim)
  = Some (Some n) ->
  (n <= 50)%Z.
Proof.
  unfold MemorySearch.match_count.
  destruct (Js.ToNumber StringToNumber NumberToString lim) as [|q| |];
    cbn [Js.Math_min]; try discriminate.
  - destruct (Qle_bool q 50) eqn:E.
    + unfold rpc_integer.
      destruct (_ && _)%bool; [|discriminate]. intros [= <-].
      apply Qle_bool_iff in E. unfold Qle in E. simpl in E.
      apply Z.div_le_upper_bound; lia.
    + intro H. vm_compute in H. injection H as <-. lia.
  - intro H. vm_compute in H. injection H as <-. lia.
Qed.

Lemma filter_length_bound {A} (p : A -> bool) (l : list A) :
  (List.length (List.filter p l) <= List.length l)%nat.
Proof.
  induction l as [|a l IH]; simpl; [lia|]. destruct (p a); simpl; lia.
Qed.

(** Whenever the count reaches the database as an integer, the endpoint
    returns at most 50 rows. *)
Lemma memory_search_at_most_50_rows
    (StringToNumber : string -> Js.num) (NumberToString : Js.num -> string)
    (cosine_distance : vector -> vector -> Q)
    (generateEmbedding : string -> option vector)
    (env : Env) (memory_notes : list Note.t) (method : string)
    (f : MemorySearch.Fields) (n : Z) (rows : list SearchRow.t) :
  rpc_integer
    (MemorySearch.match_count StringToNumber NumberToString
       (MemorySearch.limit_or_default f)) = Some (Some n) ->
  MemorySearch.results
    (body (MemorySearch.serve StringToNumber NumberToString cosine_distance
             generateEmbedding env memory_notes (mkRequest method (Json f))))
  = Some rows ->
  (List.length rows <= 50)%nat.
Proof.
  intros Hn. pose proof (rpc_integer_match_count_le_50 _ _ _ _ Hn) as Hle.
  unfold MemorySearch.serve. simpl. rewrite Hn.
  repeat
    match goal with
    | |- context [if ?c then _ else _] => destruct c
    | |- context [match generateEmbedding ?q with _ => _ end] =>
        destruct (generateEmbedding q)
    | |- context [match MemorySearch.query f with _ => _ end] =>
        destruct (MemorySearch.query f)
    | |- context [match MemorySearch.workspaceId f with _ => _ end] =>
        destruct (MemorySearch.workspaceId f)
    end;
    simpl; try discriminate; try (intros [= <-]; simpl; lia).
  unfold search_memory_notes.
  destruct (Sql.limit n _) as [ms|] eqn:El; simpl;
    [|intros [= <-]; simpl; lia].
  intros [= <-]. apply limit_rows in El. destruct El as [Hpos ->].
  eapply Nat.le_trans; [apply filter_length_bound|].
  rewrite length_map.
  eapply Nat.le_trans; [apply firstn_le_length|]. lia.
Qed.

(** C5, the failing input.  With the limit "abc" the count passed to
    [search_memory_notes] is [Math.min("abc", 50)], which is NaN; NaN
    reaches the database as NULL, [LIMIT NULL] does not limit, and the
    endpoint returns all 51 matching notes of the sample workspace.  The
    limit [-1e999], which JSON parsing reads as [-Infinity], does the
    same. *)
Lemma memory_search_cap_bypassed_by_non_numeric_limit :
  MemorySearch.match_count Sample.StringToNumber Sample.NumberToString
    (Js.String "abc") = Js.NaN
  /\ rpc_integer Js.NaN = Some None
  /\ status (Sample.search (Js.String "abc") Sample.many_notes) = 200%Z
  /\ (exists rows,
        MemorySearch.results
          (body (Sample.search (Js.String "abc") Sample.many_notes))
        = Some rows
        /\ List.length rows = 51%nat)
  /\ (exists rows,
        MemorySearch.results
          (body (Sample.search (Js.Number Js.NegInf) Sample.many_notes))
        = Some rows
        /\ List.length rows = 51%nat).
Proof.
  split; [reflexivity|]. split; [reflexivity|]. split; [reflexivity|].
  split; eexists; (split; [reflexivity|]); vm_compute; reflexivity.
Qed.

(* ------------------------------------------------------------------ *)
(** * The memory-update handler *)

(** C1, the failing input.  The note is IMMUTABLE ([protection_level] 0);
    a request that sets [archived] to true and rewrites its content gets
    the answer 200 with [success: true], and the stored row is archived
    and rewritten.  The earlier version of the handler does the same. *)
Lemma immutable_note_is_archived_and_rewritten :
  In Sample.immutable_note Sample.memory_notes
  /\ Note.protection_level Sample.immutable_note = Some IMMUTABLE
  /\ Note.archived Sample.immutable_note = Some false
  /\ (exists data table',
        Sample.update Sample.memory_notes
          (Sample.update_request (Note.id Sample.immutable_note)
             (Js.String "rewritten") Js.Undefined (Js.Bool true))
        = (mkResponse 200
             (MemoryUpdate.mkBody None None (Some true) (Some data)
                (Some ["content"; "embedding"; "archived"])),
           table')
        /\ In data table'
        /\ Note.id data = Note.id Sample.immutable_note
        /\ Note.protection_level data = Some IMMUTABLE
        /\ Note.archived data = Some true
        /\ Note.content data = "rewritten"
        /\ ~ In Sample.immutable_note table')
  /\ (exists data table',
        Sample.update_earlier Sample.memory_notes
          (Sample.update_request (Note.id Sample.immutable_note)
             (Js.String "rewritten") Js.Undefined (Js.Bool true))
        = (mkResponse 200
             (MemoryUpdate.mkBody None None (Some true) (Some data) None),
           table')
        /\ In data table'
        /\ Note.protection_level data = Some IMMUTABLE
        /\ Note.archived data = Some true
        /\ Note.content data = "rewritten").
Proof.
  split; [simpl; tauto|]. split; [reflexivity|]. split; [reflexivity|]. split.
  - do 2 eexists. split; [vm_compute; reflexivity|].
    split; [right; left; reflexivity|]. repeat split.
    simpl. intros [H|[H|[H|[H|[]]]]]; discriminate H.
  - do 2 eexists. split; [vm_compute; reflexivity|].
    split; [right; left; reflexivity|]. repeat split.
Qed.

Lemma filter_by_id_unique (table : list Note.t) (m : Note.t) :
  primary_key table -> In m table ->
  List.filter (fun x => String.eqb (Note.id x) (Note.id m)) table = [m].
Proof.
  unfold primary_key. induction table as [|a table IH]; simpl; [tauto|].
  intros Hnd Hin. inversion Hnd as [|k ks Hk Hks]; subst.
  destruct Hin as [->|Hin].
  - rewrite String.eqb_refl. f_equal.
    destruct (List.filter _ table) as [|x l] eqn:E; [reflexivity|].
    exfalso. apply Hk.
    assert (Hx : In x (List.filter
                (fun x => String.eqb (Note.id x) (Note.id m)) table))
      by (rewrite E; left; reflexivity).
    apply filter_In in Hx. destruct Hx as [Hx Hid].
    apply String.eqb_eq in Hid. rewrite <- Hid. apply in_map, Hx.
  - destruct (String.eqb (Note.id a) (Note.id m)) eqn:E.
    + apply String.eqb_eq in E. exfalso. apply Hk. rewrite E.
      apply in_map, Hin.
    + apply IH; assumption.
Qed.

Lemma update_rows_no_match (u : gmap string Js.value) (i : uuid)
    (table : list Note.t) :
  (forall x, In x table -> Note.id x <> i) ->
  MemoryUpdate.update_rows u i table = Some ([], table).
Proof.
  induction table as [|a table IH]; simpl; [reflexivity|].
  intro H. rewrite IH by (intros x Hx; apply H; right; exact Hx).
  destruct (String.eqb (Note.id a) i) eqn:E; [|reflexivity].
  apply String.eqb_eq in E. exfalso. apply (H a); [left; reflexivity|exact E].
Qed.

Lemma update_rows_unique (u : gmap string Js.value) (table : list Note.t)
    (m m' : Note.t) :
  primary_key table -> In m table -> MemoryUpdate.apply_update u m = Some m' ->
  exists table',
    MemoryUpdate.update_rows u (Note.id m) table = Some ([m'], table')
    /\ In m' table'.
Proof.
  unfold primary_key. induction table as [|a table IH]; simpl; [tauto|].
  intros Hnd Hin Hm'. inversion Hnd as [|k ks Hk Hks]; subst.
  destruct Hin as [->|Hin].
  - rewrite update_rows_no_match.
    + rewrite String.eqb_refl, Hm'. eexists. split; [reflexivity|left; reflexivity].
    + intros x Hx E. apply Hk. rewrite <- E. apply in_map, Hx.
  - destruct (IH Hks Hin Hm') as (table' & -> & Hin').
    destruct (String.eqb (Note.id a) (Note.id m)) eqn:E.
    + apply String.eqb_eq in E. exfalso. apply Hk. rewrite E.
      apply in_map, Hin.
    + eexists. split; [reflexivity|right; exact Hin'].
Qed.

(** The handler archives whatever note it is asked to archive: the
    statement holds for every stored note, whatever its
    [protection_level]. *)
Lemma archive_request_is_applied_to_every_note
    (NumberToString : Js.num -> string)
    (generateEmbedding : string -> option vector)
    (env : Env) (memory_notes : list Note.t) (m : Note.t) (method : string) :
  env_configured env = true ->
  String.eqb method "OPTIONS" = false ->
  primary_key memory_notes ->
  In m memory_notes ->
  Note.id m <> "" ->
  exists memory_notes',
    MemoryUpdate.serve NumberToString generateEmbedding env memory_notes
      (mkRequest method
         (Json (MemoryUpdate.mkFields (Js.String (Note.id m)) Js.Undefined
                  Js.Undefined Js.Undefined Js.Undefined (Js.Bool true))))
    = (mkResponse 200
         (MemoryUpdate.mkBody None None (Some true)
            (Some (MemoryUpdate.set_archived (Some true) m))
            (Some ["archived"])),
       memory_notes')
    /\ In (MemoryUpdate.set_archived (Some true) m) memory_notes'.
Proof.
  intros Henv Hmethod pk Hm Hid.
  assert (Happly : MemoryUpdate.apply_update (<["archived" := Js.Bool true]> ∅) m
                   = Some (MemoryUpdate.set_archived (Some true) m))
    by reflexivity.
  destruct (update_rows_unique _ memory_notes m _ pk Hm Happly)
    as (table' & Hrows & Hin).
  exists table'. split; [|exact Hin].
  unfold MemoryUpdate.serve. simpl. rewrite Hmethod, Henv.
  assert (Hne : String.eqb (Note.id m) "" = false)
    by (apply String.eqb_neq, Hid).
  rewrite Hne. simpl.
  unfold MemoryUpdate.fetch_note. rewrite (filter_by_id_unique _ m pk Hm).
  simpl. unfold MemoryUpdate.update_note.
  change (MemoryUpdate.put "archived" (Js.Bool true) (∅, []))
    with (<["archived" := Js.Bool true]> (∅ : gmap string Js.value), ["archived"]).
  cbn iota. rewrite Hrows. reflexivity.
Qed.

Lemma includes_validTypes (s : string) :
  Js.includes MemoryUpdate.validTypes (Js.String s) = true
  <-> In s MemoryUpdate.validTypes.
Proof.
  unfold Js.includes. rewrite existsb_exists. split.
  - intros (x & Hx & E). apply String.eqb_eq in E. subst x. exact Hx.
  - intro H. exists s. split; [exact H|apply String.eqb_refl].
Qed.

(** C9 fails as stated: "observation" is one of the eight values and the
    handler rejects it; "todo" is none of them and the handler accepts it
    and stores it. *)
Lemma observation_is_rejected_and_todo_is_accepted :
  In "observation" MemoryType
  /\ Sample.update Sample.memory_notes
       (Sample.update_request (Note.id Sample.standard_note) Js.Undefined
          (Js.String "observation") Js.Undefined)
     = (mkResponse 400
          (MemoryUpdate.error_body
             "Invalid memory_type. Must be one of: insight, rule, warning, todo, bug, profile_change"
             None),
        Sample.memory_notes)
  /\ ~ In "todo" MemoryType
  /\ exists data table',
       Sample.update Sample.memory_notes
         (Sample.update_request (Note.id Sample.standard_note) Js.Undefined
            (Js.String "todo") Js.Undefined)
       = (mkResponse 200
            (MemoryUpdate.mkBody None None (Some true) (Some data)
               (Some ["memory_type"])),
          table')
       /\ Note.memory_type data = Some "todo".
Proof.
  split; [simpl; tauto|]. split; [vm_compute; reflexivity|]. split.
  - simpl. intros [H|[H|[H|[H|[H|[H|[H|[H|[]]]]]]]]]; discriminate H.
  - do 2 eexists. split; [vm_compute; reflexivity|]. reflexivity.
Qed.

(** C9, as the code has it.  The memory-update handler checks [memoryType]
    against its own list, [insight, rule, warning, todo, bug,
    profile_change]: a request with an id whose [memoryType] is truthy and
    not in that list is answered 400 with the "Invalid memory_type"
    message and changes nothing; a [memoryType] in the list, or a missing
    or empty one, is never answered with that message. *)
Theorem memory_type_is_validated_against_validTypes
    (NumberToString : Js.num -> string)
    (generateEmbedding : string -> option vector)
    (env : Env) (memory_notes : list Note.t)
    (method : string) (f : MemoryUpdate.Fields) :
  String.eqb method "OPTIONS" = false ->
  Js.truthy (MemoryUpdate.noteId f) = true ->
  MemoryUpdate.validTypes
  = ["insight"; "rule"; "warning"; "todo"; "bug"; "profile_change"]
  /\ (Js.truthy (MemoryUpdate.memoryType f) = true ->
      Js.includes MemoryUpdate.validTypes (MemoryUpdate.memoryType f) = false ->
      MemoryUpdate.serve NumberToString generateEmbedding env memory_notes
        (mkRequest method (Json f))
      = (mkResponse 400
           (MemoryUpdate.error_body
              "Invalid memory_type. Must be one of: insight, rule, warning, todo, bug, profile_change"
              None),
         memory_notes))
  /\ (Js.truthy (MemoryUpdate.memoryType f) = false
      \/ Js.includes MemoryUpdate.validTypes (MemoryUpdate.memoryType f) = true ->
      MemoryUpdate.error
        (body (fst (MemoryUpdate.serve NumberToString generateEmbedding env
                      memory_notes (mkRequest method (Json f)))))
      <> Some "Invalid memory_type. Must be one of: insight, rule, warning, todo, bug, profile_change").
Proof.
  intros Hmethod Hid. split; [reflexivity|]. split.
  - intros Ht Hi. unfold MemoryUpdate.serve. simpl.
    rewrite Hmethod, Hid, Ht, Hi. reflexivity.
  - intros Hok. unfold MemoryUpdate.serve. simpl. rewrite Hmethod, Hid. simpl.
    assert (Hskip : Js.truthy (MemoryUpdate.memoryType f)
                    && negb (Js.includes MemoryUpdate.validTypes
                               (MemoryUpdate.memoryType f)) = false).
    { destruct Hok as [-> | ->]; [reflexivity|apply andb_false_r]. }
    rewrite Hskip.
    repeat
      match goal with
      | |- context [if ?c then _ else _] => destruct c
      | |- context [match ?x with _ => _ end] => destruct x
      end;
      simpl; discriminate.
Qed.

Lemma memory_type_is_validated_against_validTypes_witness :
  Sample.update Sample.memory_notes
    (Sample.update_request (Note.id Sample.standard_note) Js.Undefined
       (Js.String "lesson") Js.Undefined)
  = (mkResponse 400
       (MemoryUpdate.error_body
          "Invalid memory_type. Must be one of: insight, rule, warning, todo, bug, profile_change"
          None),
     Sample.memory_notes).
Proof.
  destruct (memory_type_is_validated_against_validTypes
              Sample.NumberToString Sample.generateEmbedding Sample.env
              Sample.memory_notes "POST"
              (MemoryUpdate.mkFields (Js.String (Note.id Sample.standard_note))
                 Js.Undefined (Js.String "lesson") Js.Undefined Js.Undefined
                 Js.Undefined))
    as (_ & Hreject & _).
  - reflexivity.
  - reflexivity.
  - apply Hreject; reflexivity.
Defined.

(* ------------------------------------------------------------------ *)
(** * The ['memory:recall'] handler *)



(* ------------------------------------------------------------------ *)
(** * [validateIPC] *)

Lemma string_prefix_app (p s : string) : String.prefix p (p ++ s) = true.
Proof.
  induction p as [|c p IH]; simpl; [destruct s; reflexivity|].
  destruct (ascii_dec c c) as [_|Hne]; [exact IH|contradiction].
Qed.

Lemma string_app_assoc (a b c : string) : (a ++ b) ++ c = a ++ b ++ c.
Proof.
  induction a as [|x a IH]; [reflexivity|].
  change (String.String x ((a ++ b) ++ c) = String.String x (a ++ b ++ c)).
  rewrite IH. reflexivity.
Qed.

Lemma z_string_rejects (checks : list Schemas.StringCheck) (s : string)
    (c : Schemas.StringCheck) (i : Schemas.ZodIssue) :
  In c checks -> Schemas.check_issue s c = Some i ->
  exists issues, Schemas.z_string checks (Js.String s) = Schemas.Failure issues.
Proof.
  intros Hc Hi. unfold Schemas.z_string.
  destruct (omap (Schemas.check_issue s) checks) as [|i0 l] eqn:E.
  - exfalso. revert Hc E. induction checks as [|c0 checks IH]; simpl; [tauto|].
    intros [->|Hc].
    + rewrite Hi. discriminate.
    + destruct (Schemas.check_issue s c0); [discriminate|]. apply IH, Hc.
  - eexists. reflexivity.
Qed.



(* ------------------------------------------------------------------ *)
(** * Further properties of [hybrid_search_memories] *)

Lemma filter_key_at_most_one {B} (key : B -> string) (i : string) (l : list B) :
  List.NoDup (List.map key l) ->
  List.filter (fun x => String.eqb i (key x)) l = []
  \/ exists x, List.filter (fun x => String.eqb i (key x)) l = [x].
Proof.
  induction l as [|a l IH]; simpl; [auto|].
  intro Hnd. inversion Hnd as [|k ks Hk Hks]; subst.
  destruct (String.eqb i (key a)) eqn:E; [|apply IH, Hks].
  right. exists a. f_equal.
  destruct (List.filter _ l) as [|y l'] eqn:Ef; [reflexivity|].
  exfalso. apply Hk.
  assert (Hy : In y (List.filter (fun x => String.eqb i (key x)) l))
    by (rewrite Ef; left; reflexivity).
  apply filter_In in Hy. destruct Hy as [Hy Ey].
  apply String.eqb_eq in E, Ey. rewrite <- E, Ey. apply in_map, Hy.
Qed.

Lemma combined_ids (bw vw : Q) (bs vs : list Scored.t) :
  List.NoDup (List.map Scored.id vs) ->
  List.map Combined.memory_id (combined bw vw bs vs)
  = (List.map (fun b => Some (Scored.id b)) bs
     ++ List.map (fun v => Some (Scored.id v))
          (List.filter
             (fun v => negb (existsb
                               (fun b => String.eqb (Scored.id b) (Scored.id v))
                               bs))
             vs))%list.
Proof.
  intro Hvs. unfold combined, full_outer_join.
  rewrite !map_app, !map_map. simpl. f_equal.
  induction bs as [|b bs IH]; [reflexivity|].
  cbn [flat_map List.map]. rewrite map_app, IH. clear IH.
  change (Some (Scored.id b) :: List.map (fun b0 => Some (Scored.id b0)) bs)
    with ([Some (Scored.id b)]
          ++ List.map (fun b0 => Some (Scored.id b0)) bs)%list.
  f_equal.
  destruct (filter_key_at_most_one Scored.id (Scored.id b) vs Hvs)
    as [E|(v & E)]; rewrite E; reflexivity.
Qed.

Lemma combined_ids_NoDup (bw vw : Q) (bs vs : list Scored.t) :
  List.NoDup (List.map Scored.id bs) -> List.NoDup (List.map Scored.id vs) ->
  List.NoDup (List.map Combined.memory_id (combined bw vw bs vs)).
Proof.
  intros Hbs Hvs. rewrite combined_ids by exact Hvs.
  assert (Hinj : forall l : list Scored.t,
             List.NoDup (List.map Scored.id l) ->
             List.NoDup (List.map (fun x => Some (Scored.id x)) l)).
  { intros l Hl. rewrite <- (map_map Scored.id Some).
    apply Finite.Injective_map_NoDup; [|exact Hl].
    intros x y [= E]. exact E. }
  apply List.NoDup_app.
  - apply Hinj, Hbs.
  - apply Hinj, NoDup_map_filter, Hvs.
  - intros a Ha Hb. apply in_map_iff in Ha, Hb.
    destruct Ha as (b & <- & Hb'). destruct Hb as (v & [= E] & Hv).
    apply filter_In in Hv. destruct Hv as [_ Hno].
    apply negb_true_iff in Hno.
    assert (Hex : existsb (fun b0 => String.eqb (Scored.id b0) (Scored.id v)) bs
                  = true).
    { apply existsb_exists. exists b. split; [exact Hb'|].
      apply String.eqb_eq. congruence. }
    congruence.
Qed.

Lemma joined_id_In (bw vw : Q) (notes : list Note.t) (cs : list Combined.t)
    (i : uuid) :
  In i (List.map HybridRow.id (joined bw vw notes cs)) ->
  In (Some i) (List.map Combined.memory_id cs).
Proof.
  unfold joined. intro H. apply in_map_iff in H. destruct H as (r & <- & Hr).
  apply in_flat_map in Hr. destruct Hr as (c & Hc & Hr).
  apply in_map_iff in Hr. destruct Hr as (m & <- & Hm).
  apply filter_In in Hm. destruct Hm as [_ Hid].
  apply in_map_iff. exists c. split; [|exact Hc].
  destruct (Combined.memory_id c) as [j|]; simpl in Hid; [|discriminate].
  destruct (String.eqb (Note.id m) j) eqn:E; [|discriminate].
  apply String.eqb_eq in E. simpl. congruence.
Qed.

Lemma joined_ids_NoDup (bw vw : Q) (notes : list Note.t) (cs : list Combined.t) :
  primary_key notes ->
  List.NoDup (List.map Combined.memory_id cs) ->
  List.NoDup (List.map HybridRow.id (joined bw vw notes cs)).
Proof.
  intros pk. induction cs as [|c cs IH]; simpl; [constructor|].
  intro Hnd. inversion Hnd as [|k ks Hk Hks]; subst.
  unfold joined. cbn [flat_map]. rewrite map_app. apply List.NoDup_app.
  - rewrite map_map. simpl. apply NoDup_map_filter, pk.
  - apply IH, Hks.
  - intros i Hi Hj. apply joined_id_In in Hj. apply Hk.
    rewrite map_map in Hi. simpl in Hi. apply in_map_iff in Hi.
    destruct Hi as (m & <- & Hm). apply filter_In in Hm. destruct Hm as [_ Hid].
    destruct (Combined.memory_id c) as [j|]; simpl in Hid; [|discriminate].
    destruct (String.eqb (Note.id m) j) eqn:E; [|discriminate].
    apply String.eqb_eq in E. subst j. exact Hj.
Qed.






Lemma nullif_zero (w : Q) :
  (w == 0 -> Sql.nullif w 0 = None) /\ (~ w == 0 -> Sql.nullif w 0 = Some w).
Proof.
  unfold Sql.nullif. destruct (Qeq_bool w 0) eqn:E; split; intro H;
    try reflexivity.
  - apply Qeq_bool_iff in E. contradiction.
  - apply Qeq_bool_iff in H. congruence.
Qed.



Lemma combined_has (bw vw : Q) (bs vs : list Scored.t) (x : Scored.t) :
  In x bs \/ In x vs ->
  exists c, In c (combined bw vw bs vs)
    /\ Combined.memory_id c = Some (Scored.id x).
Proof.
  unfold combined, full_outer_join.
  assert (Hleft : forall b, In b bs ->
            exists ov,
              In (Some b, ov)
                (flat_map
                   (fun b =>
                      match
                        List.filter
                          (fun v => String.eqb (Scored.id b) (Scored.id v)) vs
                      with
                      | [] => [(Some b, None)]
                      | ms => List.map (fun v => (Some b, Some v)) ms
                      end) bs)).
  { intros b Hb.
    destruct (List.filter (fun v => String.eqb (Scored.id b) (Scored.id v)) vs)
      as [|v0 ms] eqn:E.
    - exists None. apply in_flat_map. exists b. split; [exact Hb|].
      rewrite E. left. reflexivity.
    - exists (Some v0). apply in_flat_map. exists b. split; [exact Hb|].
      rewrite E. left. reflexivity. }
  intros [Hb|Hv].
  - destruct (Hleft x Hb) as (ov & Hin).
    eexists. split.
    + apply in_map_iff. exists (Some x, ov). split; [reflexivity|].
      apply in_or_app. left. exact Hin.
    + reflexivity.
  - destruct (existsb (fun b => String.eqb (Scored.id b) (Scored.id x)) bs)
      eqn:Hex.
    + apply existsb_exists in Hex. destruct Hex as (b & Hb & Eid).
      apply String.eqb_eq in Eid.
      destruct (Hleft b Hb) as (ov & Hin).
      eexists. split.
      * apply in_map_iff. exists (Some b, ov). split; [reflexivity|].
        apply in_or_app. left. exact Hin.
      * simpl. congruence.
    + eexists. split.
      * apply in_map_iff. exists (None, Some x). split; [reflexivity|].
        apply in_or_app. right. apply in_map_iff. exists x.
        split; [reflexivity|]. apply filter_In. split; [exact Hv|].
        rewrite Hex. reflexivity.
      * reflexivity.
Qed.

Lemma joined_has (bw vw : Q) (notes : list Note.t) (cs : list Combined.t)
    (c : Combined.t) (m : Note.t) :
  In c cs -> In m notes -> Combined.memory_id c = Some (Note.id m) ->
  In (Note.id m) (List.map HybridRow.id (joined bw vw notes cs)).
Proof.
  intros Hc Hm Hid. apply in_map_iff.
  exists (select_row bw vw c m). split; [reflexivity|].
  unfold joined. apply in_flat_map. exists c. split; [exact Hc|].
  apply in_map, filter_In. split; [exact Hm|].
  rewrite Hid. simpl. rewrite String.eqb_refl. reflexivity.
Qed.



(* ------------------------------------------------------------------ *)
(** * Further properties of [search_memory_notes] and of memory-search *)

Lemma StronglySorted_map {A B} (R : A -> A -> Prop) (R' : B -> B -> Prop)
    (f : A -> B) (l : list A) :
  (forall x y, R x y -> R' (f x) (f y)) ->
  StronglySorted R l -> StronglySorted R' (List.map f l).
Proof.
  intros Hf. induction 1 as [|x l Hl IH Hx]; simpl; constructor.
  - exact IH.
  - apply List.Forall_forall. intros y Hy. apply in_map_iff in Hy.
    destruct Hy as (z & <- & Hz). apply Hf.
    rewrite List.Forall_forall in Hx. apply Hx, Hz.
Qed.

Lemma nearer_total (cosine_distance : vector -> vector -> Q) (q : vector)
    (x y : Note.t) :
  nearer cosine_distance q x y = false -> nearer cosine_distance q y x = true.
Proof.
  unfold nearer.
  destruct (distance cosine_distance x q) as [a|],
           (distance cosine_distance y q) as [b|]; try congruence.
  unfold Sql.asc. intro H. apply Qle_bool_iff.
  destruct (Qlt_le_dec a b) as [Hlt|Hle].
  - assert (Hab : Qle_bool a b = true)
      by (apply Qle_bool_iff, Qlt_le_weak, Hlt).
    congruence.
  - exact Hle.
Qed.

Lemma nearer_trans (cosine_distance : vector -> vector -> Q) (q : vector)
    (x y z : Note.t) :
  nearer cosine_distance q x y = true -> nearer cosine_distance q y z = true ->
  nearer cosine_distance q x z = true.
Proof.
  unfold nearer.
  destruct (distance cosine_distance x q) as [a|],
           (distance cosine_distance y q) as [b|],
           (distance cosine_distance z q) as [c|]; try congruence.
  unfold Sql.asc. rewrite !Qle_bool_iff. intros H1 H2.
  eapply Qle_trans; eassumption.
Qed.

Lemma holds_gt_real (x : option Q) (y : Q) :
  Sql.holds (Sql.gt_real x (Some y)) = true <-> exists s, x = Some s /\ y < s.
Proof.
  destruct x as [s|]; simpl.
  - destruct (Qle_bool s y) eqn:E; simpl; split.
    + discriminate.
    + intros (s' & [= <-] & Hlt). apply Qle_bool_iff in E.
      exfalso. apply (Qlt_not_le _ _ Hlt E).
    + intros _. exists s. split; [reflexivity|].
      apply Qnot_le_lt. intro H. apply Qle_bool_iff in H. congruence.
    + reflexivity.
  - split; [discriminate|]. intros (s & Hs & _). discriminate.
Qed.

Lemma search_memory_notes_facts
    (cosine_distance : vector -> vector -> Q) (query_embedding : vector)
    (match_workspace_id : uuid) (match_threshold : Q) (match_count : option Z)
    (memory_notes : list Note.t) (rows : list SearchRow.t) :
  search_memory_notes cosine_distance query_embedding match_workspace_id
    match_threshold match_count memory_notes = Sql.Rows rows ->
  (forall r, In r rows ->
     exists m s, In m memory_notes
       /\ r = notes_row cosine_distance query_embedding m
       /\ SearchRow.workspace_id r = match_workspace_id
       /\ SearchRow.similarity r = Some s /\ match_threshold < s)
  /\ StronglySorted
       (fun x y => forall a b,
            SearchRow.similarity x = Some a -> SearchRow.similarity y = Some b ->
            b <= a)
       rows
  /\ (forall n, match_count = Some n ->
        (0 <= n)%Z /\ (Z.of_nat (List.length rows) <= n)%Z).
Proof.
  unfold search_memory_notes.
  set (kept := List.filter _ memory_notes).
  set (sorted := Sql.order_by (nearer cosine_distance query_embedding) kept).
  intro E.
  assert (Hshape : exists ms, rows = List.map (notes_row cosine_distance
                                                 query_embedding) ms
                     /\ (forall m, In m ms -> In m kept)
                     /\ StronglySorted
                          (fun x y => nearer cosine_distance query_embedding x y
                                      = true) ms
                     /\ (forall n, match_count = Some n ->
                           (0 <= n)%Z /\ (Z.of_nat (List.length ms) <= n)%Z)).
  { assert (Hsorted : StronglySorted
                        (fun x y => nearer cosine_distance query_embedding x y
                                    = true) sorted).
    { apply order_by_sorted.
      - apply nearer_total.
      - apply nearer_trans. }
    destruct match_count as [n|].
    - destruct (Sql.limit n sorted) as [ms|] eqn:El; [|discriminate].
      injection E as <-. apply limit_rows in El. destruct El as [Hn ->].
      exists (firstn (Z.to_nat n) sorted). split; [reflexivity|]. split.
      + intros m Hm. apply In_firstn in Hm. apply order_by_In in Hm. exact Hm.
      + split; [apply StronglySorted_firstn, Hsorted|].
        intros n' [= <-]. split; [exact Hn|].
        rewrite length_firstn. lia.
    - injection E as <-. exists sorted. split; [reflexivity|]. split.
      + intros m Hm. apply order_by_In in Hm. exact Hm.
      + split; [exact Hsorted|discriminate]. }
  destruct Hshape as (ms & -> & Hkept & Hsorted & Hcount).
  split; [|split].
  - intros r Hr. apply in_map_iff in Hr. destruct Hr as (m & <- & Hm).
    apply Hkept in Hm. unfold kept in Hm. apply filter_In in Hm.
    destruct Hm as [Hm Hw]. unfold notes_where in Hw.
    rewrite !holds_and3 in Hw. destruct Hw as [[[Hws _] _] Hgt].
    apply holds_gt_real in Hgt. destruct Hgt as (s & Hs & Hlt).
    exists m, s. split; [exact Hm|]. split; [reflexivity|]. split.
    + simpl in Hws |- *. destruct (String.eqb _ _) eqn:Ews; [|discriminate].
      apply String.eqb_eq, Ews.
    + split; [exact Hs|exact Hlt].
  - eapply StronglySorted_map; [|exact Hsorted].
    intros x y Hxy a b. simpl. unfold similarity_of, nearer in *.
    destruct (distance cosine_distance x query_embedding) as [dx|];
      [|discriminate].
    destruct (distance cosine_distance y query_embedding) as [dy|];
      [|discriminate].
    simpl. intros [= <-] [= <-]. apply Qle_bool_iff in Hxy.
    unfold Qminus. apply Qplus_le_r. apply Qopp_le_compat. exact Hxy.
  - intros n Hn. rewrite length_map. apply Hcount, Hn.
Qed.

(** Every row of [search_memory_notes] comes from a record of the
    requested workspace whose similarity to the query is above the
    threshold; the rows are in descending order of similarity; and with a
    count there are at most that many. *)
Theorem search_memory_notes_rows
    (cosine_distance : vector -> vector -> Q) (query_embedding : vector)
    (match_workspace_id : uuid) (match_threshold : Q) (match_count : option Z)
    (memory_notes : list Note.t) (rows : list SearchRow.t) :
  search_memory_notes cosine_distance query_embedding match_workspace_id
    match_threshold match_count memory_notes = Sql.Rows rows ->
  (forall r, In r rows ->
     exists m s, In m memory_notes
       /\ r = notes_row cosine_distance query_embedding m
       /\ SearchRow.workspace_id r = match_workspace_id
       /\ SearchRow.similarity r = Some s /\ match_threshold < s)
  /\ StronglySorted
       (fun x y => forall a b,
            SearchRow.similarity x = Some a -> SearchRow.similarity y = Some b ->
            b <= a)
       rows
  /\ (forall n, match_count = Some n ->
        (0 <= n)%Z /\ (Z.of_nat (List.length rows) <= n)%Z).
Proof. apply search_memory_notes_facts. Qed.

Lemma search_memory_notes_rows_witness :
  (0 <= 10)%Z
  /\ Z.le
       (Z.of_nat
          (List.length
             (rows_of
                (search_memory_notes Sample.cosine_distance [1; 0]
                   Sample.workspace (1 # 2) (Some 10%Z) Sample.memory_notes))))
       10%Z.
Proof.
  destruct (search_memory_notes_rows Sample.cosine_distance [1; 0]
              Sample.workspace (1 # 2) (Some 10%Z) Sample.memory_notes
              (rows_of
                 (search_memory_notes Sample.cosine_distance [1; 0]
                    Sample.workspace (1 # 2) (Some 10%Z) Sample.memory_notes)))
    as (_ & _ & Hcount).
  - reflexivity.
  - exact (Hcount 10%Z eq_refl).
Defined.

Lemma StronglySorted_filter {A} (R : A -> A -> Prop) (p : A -> bool)
    (l : list A) :
  StronglySorted R l -> StronglySorted R (List.filter p l).
Proof.
  induction 1 as [|x l Hl IH Hx]; simpl; [constructor|].
  destruct (p x); [|exact IH]. constructor; [exact IH|].
  apply List.Forall_forall. intros y Hy. apply filter_In in Hy.
  rewrite List.Forall_forall in Hx. apply Hx, Hy.
Qed.

(** What the endpoint answers when it answers with rows: the search that
    ran, for the text workspace id of the request. *)
Lemma memory_search_results_inv
    (StringToNumber : string -> Js.num) (NumberToString : Js.num -> string)
    (cosine_distance : vector -> vector -> Q)
    (generateEmbedding : string -> option vector)
    (env : Env) (memory_notes : list Note.t)
    (req : Request MemorySearch.Fields) (rows : list SearchRow.t) :
  MemorySearch.results
    (body (MemorySearch.serve StringToNumber NumberToString cosine_distance
             generateEmbedding env memory_notes req)) = Some rows ->
  rows = []
  \/ exists f q ws e count data,
       json req = Json f
       /\ MemorySearch.query f = Js.String q
       /\ MemorySearch.workspaceId f = Js.String ws
       /\ generateEmbedding q = Some e
       /\ rpc_integer
            (MemorySearch.match_count StringToNumber NumberToString
               (MemorySearch.limit_or_default f)) = Some count
       /\ search_memory_notes cosine_distance e ws (1 # 2) count memory_notes
          = Sql.Rows data
       /\ rows = List.filter MemorySearch.not_archived data.
Proof.
  unfold MemorySearch.serve.
  destruct (String.eqb (method req) "OPTIONS"); [discriminate|].
  destruct (json req) as [f|msg]; [|intros [= <-]; left; reflexivity].
  destruct (negb (Js.truthy (MemorySearch.workspaceId f))); [discriminate|].
  destruct (MemorySearch.query f) as [| |b|n|q|items|props] eqn:Eq;
    try discriminate.
  destruct (_ || _)%bool; [discriminate|].
  destruct (generateEmbedding q) as [e|] eqn:Ee;
    [|intros [= <-]; left; reflexivity].
  destruct (negb (env_configured env)); [intros [= <-]; left; reflexivity|].
  destruct (MemorySearch.workspaceId f) as [| |b|n|ws|items|props] eqn:Ew;
    try (simpl; intros [= <-]; left; reflexivity).
  match goal with
  | |- context [rpc_integer ?x] => destruct (rpc_integer x) as [count|] eqn:Ec
  end; [|intros [= <-]; left; reflexivity].
  assert (Hth : MemorySearch.threshold StringToNumber NumberToString
                  (MemorySearch.limit_or_default f) = 1 # 2).
  { unfold MemorySearch.threshold. destruct (_ && _)%bool; reflexivity. }
  rewrite Hth.
  destruct (search_memory_notes _ _ _ _ _ _) as [data|] eqn:Es;
    [|intros [= <-]; left; reflexivity].
  intros [= <-]. right. exists f, q, ws, e, count, data. auto 10.
Qed.



Lemma rpc_integer_of_integer_limit
    (StringToNumber : string -> Js.num) (NumberToString : Js.num -> string)
    (k : Z) (count : option Z) :
  rpc_integer
    (MemorySearch.match_count StringToNumber NumberToString
       (Js.Number (Js.Fin (inject_Z k)))) = Some count ->
  count = Some (Z.min k 50).
Proof.
  rewrite match_count_of_number.
  destruct (Qle_bool (inject_Z k) 50) eqn:E.
  - apply Qle_bool_iff in E. unfold Qle in E. simpl in E.
    unfold rpc_integer. simpl Qnum. simpl Qden.
    rewrite Z.mod_1_r, Z.div_1_r.
    destruct (_ && _)%bool; [|discriminate]. intros [= <-].
    f_equal. lia.
  - assert (Hk : (50 < k)%Z).
    { destruct (Z.le_gt_cases k 50) as [Hle|Hgt]; [|exact Hgt].
      assert (Hq : Qle_bool (inject_Z k) 50 = true).
      { apply Qle_bool_iff. unfold Qle. simpl. lia. }
      congruence. }
    intro H. vm_compute in H. injection H as <-. f_equal. lia.
Qed.

(** With an integer limit [k] the endpoint returns at most [min(k, 50)]
    rows, and without a limit at most 10. *)
Theorem memory_search_row_bound
    (StringToNumber : string -> Js.num) (NumberToString : Js.num -> string)
    (cosine_distance : vector -> vector -> Q)
    (generateEmbedding : string -> option vector)
    (env : Env) (memory_notes : list Note.t)
    (method : string) (f : MemorySearch.Fields) (rows : list SearchRow.t) :
  MemorySearch.results
    (body (MemorySearch.serve StringToNumber NumberToString cosine_distance
             generateEmbedding env memory_notes (mkRequest method (Json f))))
  = Some rows ->
  (forall k, MemorySearch.limit f = Js.Number (Js.Fin (inject_Z k)) ->
     (List.length rows <= Z.to_nat (Z.min k 50))%nat)
  /\ (MemorySearch.limit f = Js.Undefined -> (List.length rows <= 10)%nat).
Proof.
  intro E. apply memory_search_results_inv in E.
  destruct E as [->|(f' & q & ws & e & count & data & Ef & _ & _ & _ & Ec & Es & ->)].
  - split; intros; simpl; lia.
  - simpl in Ef. injection Ef as <-.
    destruct (search_memory_notes_facts _ _ _ _ _ _ _ Es) as (_ & _ & Hcount).
    assert (Hbound : forall k,
               MemorySearch.limit_or_default f = Js.Number (Js.Fin (inject_Z k)) ->
               (List.length (List.filter MemorySearch.not_archived data)
                <= Z.to_nat (Z.min k 50))%nat).
    { intros k Hk. rewrite Hk in Ec.
      apply rpc_integer_of_integer_limit in Ec.
      destruct (Hcount _ Ec) as [Hpos Hlen].
      pose proof (filter_length_bound MemorySearch.not_archived data). lia. }
    split.
    + intros k Hk. apply Hbound. unfold MemorySearch.limit_or_default.
      rewrite Hk. reflexivity.
    + intro Hu. apply (Hbound 10%Z). unfold MemorySearch.limit_or_default.
      rewrite Hu. reflexivity.
Qed.

Lemma memory_search_row_bound_witness :
  (match MemorySearch.results
           (body (Sample.search (Js.Number (Js.Fin (inject_Z 7))) Sample.many_notes))
   with Some rows => List.length rows | None => 0 end <= 7)%nat.
Proof.
  destruct (memory_search_row_bound
              Sample.StringToNumber Sample.NumberToString Sample.cosine_distance
              Sample.generateEmbedding Sample.env Sample.many_notes "POST"
              (MemorySearch.mkFields (Js.String Sample.workspace)
                 (Js.String "gamma") (Js.Number (Js.Fin (inject_Z 7))))
              (match MemorySearch.results
                       (body (Sample.search (Js.Number (Js.Fin (inject_Z 7)))
                                Sample.many_notes))
               with Some rows => rows | None => [] end))
    as (Hk & _).
  - vm_compute. reflexivity.
  - specialize (Hk 7%Z eq_refl).
    destruct (MemorySearch.results _) as [rows|]; [exact Hk|lia].
Defined.



(** The statuses of the endpoint are 200, 400 and 500.  A 200 carries no
    error; every other answer carries one; a 400 carries no rows and a 500
    carries the empty list, so rows are only ever sent with a 200. *)
Theorem memory_search_response_shape
    (StringToNumber : string -> Js.num) (NumberToString : Js.num -> string)
    (cosine_distance : vector -> vector -> Q)
    (generateEmbedding : string -> option vector)
    (env : Env) (memory_notes : list Note.t)
    (req : Request MemorySearch.Fields) :
  let resp :=
    MemorySearch.serve StringToNumber NumberToString cosine_distance
      generateEmbedding env memory_notes req in
  (status resp = 200 /\ MemorySearch.error (body resp) = None)%Z
  \/ (status resp = 400 /\ MemorySearch.error (body resp) <> None
      /\ MemorySearch.results (body resp) = None)%Z
  \/ (status resp = 500 /\ MemorySearch.error (body resp) <> None
      /\ MemorySearch.results (body resp) = Some [])%Z.
Proof.
  unfold MemorySearch.serve.
  repeat
    match goal with
    | |- context [if ?c then _ else _] => destruct c
    | |- context [match ?x with _ => _ end] => destruct x
    end;
    simpl;
    first [ left; split; reflexivity
          | right; left; split; [reflexivity|split; [discriminate|reflexivity]]
          | right; right; split; [reflexivity|split; [discriminate|reflexivity]] ].
Qed.

(* ------------------------------------------------------------------ *)
(** * Further properties of memory-update *)

Lemma set_column_never_written (col : string) (v : Js.value) (m m' : Note.t) :
  MemoryUpdate.set_column col v m = Some m' ->
  columns_never_written m' = columns_never_written m.
Proof.
  unfold MemoryUpdate.set_column.
  repeat
    match goal with
    | |- context [if ?c then _ else _] => destruct c
    end;
    try discriminate.
  - destruct v; try discriminate. intros [= <-]. reflexivity.
  - destruct (MemoryUpdate.as_vector v); [|discriminate]. intros [= <-]. reflexivity.
  - destruct (MemoryUpdate.as_text v); [|discriminate]. intros [= <-]. reflexivity.
  - destruct (MemoryUpdate.as_text v); [|discriminate]. intros [= <-]. reflexivity.
  - destruct (MemoryUpdate.as_text_array v); [|discriminate]. intros [= <-]. reflexivity.
  - destruct (MemoryUpdate.as_boolean v); [|discriminate]. intros [= <-]. reflexivity.
Qed.

Lemma update_fold_none (u : gmap string Js.value) (cols : list string) :
  fold_left
    (fun acc col =>
       match acc, u !! col with
       | Some row, Some v => MemoryUpdate.set_column col v row
       | _, _ => acc
       end) cols None = None.
Proof. induction cols as [|c cols IH]; simpl; [reflexivity|exact IH]. Qed.

Lemma update_fold_never_written (u : gmap string Js.value) (cols : list string)
    (m m' : Note.t) :
  fold_left
    (fun acc col =>
       match acc, u !! col with
       | Some row, Some v => MemoryUpdate.set_column col v row
       | _, _ => acc
       end) cols (Some m) = Some m' ->
  columns_never_written m' = columns_never_written m.
Proof.
  revert m. induction cols as [|c cols IH]; simpl; intros m H.
  - injection H as <-. reflexivity.
  - destruct (u !! c) as [v|]; [|apply IH, H].
    destruct (MemoryUpdate.set_column c v m) as [m1|] eqn:E.
    + rewrite (IH m1 H). eapply set_column_never_written, E.
    + rewrite update_fold_none in H. discriminate.
Qed.

Lemma apply_update_never_written (u : gmap string Js.value) (m m' : Note.t) :
  MemoryUpdate.apply_update u m = Some m' ->
  columns_never_written m' = columns_never_written m.
Proof. apply update_fold_never_written. Qed.

Lemma update_rows_rows (u : gmap string Js.value) (i : uuid)
    (table changed table' : list Note.t) :
  MemoryUpdate.update_rows u i table = Some (changed, table') ->
  Forall2
    (fun m m' => columns_never_written m' = columns_never_written m
                 /\ (m' <> m -> Note.id m = i))
    table table'
  /\ Forall2 (fun m m' => MemoryUpdate.apply_update u m = Some m')
       (List.filter (fun m => String.eqb (Note.id m) i) table) changed.
Proof.
  revert changed table'.
  induction table as [|m table IH]; simpl; intros changed table' H.
  - injection H as <- <-. split; constructor.
  - destruct (MemoryUpdate.update_rows u i table) as [[ch rest']|]; [|discriminate].
    destruct (IH ch rest' eq_refl) as [IH1 IH2].
    destruct (String.eqb (Note.id m) i) eqn:E.
    + destruct (MemoryUpdate.apply_update u m) as [m'|] eqn:Ea; [|discriminate].
      injection H as <- <-. split; constructor; auto.
      split; [eapply apply_update_never_written, Ea|].
      intros _. apply String.eqb_eq, E.
    + injection H as <- <-. split; [|exact IH2].
      constructor; [|exact IH1]. split; [reflexivity|congruence].
Qed.

Lemma Forall2_weaken {A B} (R R' : A -> B -> Prop) (l : list A) (l' : list B) :
  (forall x y, R x y -> R' x y) -> Forall2 R l l' -> Forall2 R' l l'.
Proof. intro H. induction 1; constructor; auto. Qed.

Lemma Forall2_same {A} (R : A -> A -> Prop) (l : list A) :
  (forall x, R x x) -> Forall2 R l l.
Proof. intro H. induction l; constructor; auto. Qed.

(** What a 200 answer to an update request means: the note was found, the
    update object was built from the request, and the update ran. *)
Lemma memory_update_success_inv
    (NumberToString : Js.num -> string)
    (generateEmbedding : string -> option vector)
    (env : Env) (memory_notes : list Note.t)
    (method : string) (f : MemoryUpdate.Fields)
    (resp : Response MemoryUpdate.Body) (memory_notes' : list Note.t) :
  String.eqb method "OPTIONS" = false ->
  MemoryUpdate.serve NumberToString generateEmbedding env memory_notes
    (mkRequest method (Json f)) = (resp, memory_notes') ->
  status resp = 200%Z ->
  exists i existingNote d updateData changed data,
    MemoryUpdate.noteId f = Js.String i
    /\ List.filter (fun m => String.eqb (Note.id m) i) memory_notes
       = [existingNote]
    /\ MemoryUpdate.content_step NumberToString generateEmbedding
         (MemoryUpdate.content f) existingNote (∅, []) = Some d
    /\ MemoryUpdate.other_steps f d = (updateData, changed)
    /\ MemoryUpdate.update_rows updateData i memory_notes
       = Some ([data], memory_notes')
    /\ MemoryUpdate.apply_update updateData existingNote = Some data
    /\ resp = mkResponse 200
                (MemoryUpdate.mkBody None None (Some true) (Some data)
                   (Some changed)).
Proof.
  intro Hmethod. unfold MemoryUpdate.serve. simpl. rewrite Hmethod.
  destruct (negb (Js.truthy (MemoryUpdate.noteId f)));
    [intros [= <- <-]; discriminate|].
  destruct (_ && _)%bool; [intros [= <- <-]; discriminate|].
  destruct (_ && _)%bool; [intros [= <- <-]; discriminate|].
  destruct (negb (env_configured env)); [intros [= <- <-]; discriminate|].
  unfold MemoryUpdate.fetch_note, MemoryUpdate.update_note.
  destruct (MemoryUpdate.noteId f) as [| |b|n|i|items|props];
    try (intros [= <- <-]; discriminate).
  destruct (List.filter _ memory_notes) as [|m0 [|m1 l]] eqn:Ef;
    try (intros [= <- <-]; discriminate).
  destruct (MemoryUpdate.content_step _ _ _ m0 _) as [d|] eqn:Ec;
    [|intros [= <- <-]; discriminate].
  destruct (MemoryUpdate.other_steps f d) as [u changed] eqn:Eo.
  destruct (MemoryUpdate.update_rows u i memory_notes)
    as [[[|data [|x l]] t']|] eqn:Eu;
    try (intros [= <- <-]; discriminate).
  intros [= <- <-] _.
  exists i, m0, d, u, changed, data.
  repeat (split; [reflexivity || assumption|]).
  split; [|reflexivity].
  destruct (update_rows_rows _ _ _ _ _ Eu) as [_ H2].
  rewrite Ef in H2. inversion H2; subst. assumption.
Qed.

(** An update request that is not answered 200 leaves the table as it
    was. *)
Theorem memory_update_failure_changes_nothing
    (NumberToString : Js.num -> string)
    (generateEmbedding : string -> option vector)
    (env : Env) (memory_notes : list Note.t)
    (req : Request MemoryUpdate.Fields) :
  status (fst (MemoryUpdate.serve NumberToString generateEmbedding env
                 memory_notes req)) <> 200%Z ->
  snd (MemoryUpdate.serve NumberToString generateEmbedding env memory_notes req)
  = memory_notes.
Proof.
  unfold MemoryUpdate.serve.
  repeat
    match goal with
    | |- context [if ?c then _ else _] => destruct c
    | |- context [let '(_, _) := ?x in _] => destruct x
    | |- context [match ?x with _ => _ end] => destruct x
    end;
    simpl; try reflexivity; intro H; exfalso; apply H; reflexivity.
Qed.

Lemma memory_update_failure_changes_nothing_witness :
  snd (Sample.update Sample.memory_notes
         (Sample.update_request "no-such-note" Js.Undefined Js.Undefined
            (Js.Bool true)))
  = Sample.memory_notes.
Proof.
  apply (memory_update_failure_changes_nothing Sample.NumberToString
           Sample.generateEmbedding Sample.env Sample.memory_notes).
  vm_compute. discriminate.
Defined.


Lemma lookup_put (col col' : string) (v : Js.value) (d : MemoryUpdate.Draft) :
  fst (MemoryUpdate.put col v d) !! col'
  = if String.eqb col col' then Some v else fst d !! col'.
Proof.
  unfold MemoryUpdate.put. simpl. destruct (String.eqb col col') eqn:E.
  - apply String.eqb_eq in E. subst. apply lookup_insert_eq.
  - apply String.eqb_neq in E. apply lookup_insert_ne, E.
Qed.

Lemma lookup_put_if_defined (col col' : string) (v : Js.value)
    (d : MemoryUpdate.Draft) :
  fst (MemoryUpdate.put_if_defined col v d) !! col'
  = if is_defined v && String.eqb col col' then Some v else fst d !! col'.
Proof.
  unfold MemoryUpdate.put_if_defined.
  destruct v; try apply lookup_put. reflexivity.
Qed.

Lemma changed_put_if_defined (col : string) (v : Js.value)
    (d : MemoryUpdate.Draft) :
  snd (MemoryUpdate.put_if_defined col v d)
  = (snd d ++ (if is_defined v then [col] else []))%list.
Proof.
  unfold MemoryUpdate.put_if_defined, MemoryUpdate.put.
  destruct v; simpl; try reflexivity. symmetry. apply app_nil_r.
Qed.

Section UpdateField.
Context {X : Type}.
Variable proj : Note.t -> X.
Variable c0 : string.
Variable conv : Js.value -> option X.
Hypothesis set_column_field :
  forall col v m m',
    MemoryUpdate.set_column col v m = Some m' ->
    (col = c0 -> conv v = Some (proj m')) /\ (col <> c0 -> proj m' = proj m).
Variable u : gmap string Js.value.

Let run (cols : list string) (start : option Note.t) : option Note.t :=
  fold_left
    (fun acc col =>
       match acc, u !! col with
       | Some row, Some v => MemoryUpdate.set_column col v row
       | _, _ => acc
       end) cols start.

Lemma update_fold_other_columns (cols : list string) (m m' : Note.t) :
  ~ In c0 cols -> run cols (Some m) = Some m' -> proj m' = proj m.
Proof.
  unfold run. revert m. induction cols as [|c cols IH]; simpl; intros m Hc H.
  - injection H as <-. reflexivity.
  - assert (Hne : c <> c0) by (intro E; apply Hc; left; exact E).
    assert (Hc' : ~ In c0 cols) by (intro E; apply Hc; right; exact E).
    destruct (u !! c) as [v|]; [|apply IH; assumption].
    destruct (MemoryUpdate.set_column c v m) as [m1|] eqn:E.
    + rewrite (IH m1 Hc' H). apply (set_column_field _ _ _ _ E), Hne.
    + rewrite update_fold_none in H. discriminate.
Qed.

Lemma update_fold_column (cols : list string) (m m' : Note.t) :
  List.NoDup cols -> In c0 cols -> run cols (Some m) = Some m' ->
  match u !! c0 with
  | Some v => conv v = Some (proj m')
  | None => proj m' = proj m
  end.
Proof.
  unfold run. revert m.
  induction cols as [|c cols IH]; simpl; intros m Hnd Hin H; [destruct Hin|].
  inversion Hnd as [|k ks Hk Hks]; subst.
  destruct (String.eqb c c0) eqn:Ec.
  - apply String.eqb_eq in Ec. subst c.
    destruct (u !! c0) as [v|].
    + destruct (MemoryUpdate.set_column c0 v m) as [m1|] eqn:E.
      * rewrite (update_fold_other_columns cols m1 m' Hk H).
        apply (set_column_field _ _ _ _ E). reflexivity.
      * rewrite update_fold_none in H. discriminate.
    + apply (update_fold_other_columns cols m m' Hk H).
  - apply String.eqb_neq in Ec.
    destruct Hin as [E|Hin]; [contradiction|].
    destruct (u !! c) as [v|]; [|apply IH; assumption].
    destruct (MemoryUpdate.set_column c v m) as [m1|] eqn:E.
    + specialize (IH m1 Hks Hin H).
      destruct (u !! c0); [exact IH|].
      rewrite IH. apply (set_column_field _ _ _ _ E), Ec.
    + rewrite update_fold_none in H. discriminate.
Qed.
End UpdateField.

Ltac set_column_cases :=
  let E := fresh "E" in
  intros col v m m'; unfold MemoryUpdate.set_column;
  repeat
    match goal with
    | |- context [if String.eqb col ?c then _ else _] =>
        destruct (String.eqb col c) eqn:E;
        [apply String.eqb_eq in E; subst col|clear E]
    end;
  try discriminate;
  repeat
    match goal with
    | |- context [option_map _ ?x] => destruct x; simpl
    | |- context [match v with _ => _ end] => destruct v
    end;
  try discriminate;
  intros [= <-]; split; intro; try reflexivity; try discriminate;
  try congruence.

Lemma set_column_content :
  forall col v m m',
    MemoryUpdate.set_column col v m = Some m' ->
    (col = "content" ->
     match v with Js.String s => Some s | _ => None end = Some (Note.content m'))
    /\ (col <> "content" -> Note.content m' = Note.content m).
Proof. set_column_cases. Qed.

Lemma set_column_embedding :
  forall col v m m',
    MemoryUpdate.set_column col v m = Some m' ->
    (col = "embedding" -> MemoryUpdate.as_vector v = Some (Note.embedding m'))
    /\ (col <> "embedding" -> Note.embedding m' = Note.embedding m).
Proof. set_column_cases. Qed.

Lemma set_column_memory_type :
  forall col v m m',
    MemoryUpdate.set_column col v m = Some m' ->
    (col = "memory_type" -> MemoryUpdate.as_text v = Some (Note.memory_type m'))
    /\ (col <> "memory_type" -> Note.memory_type m' = Note.memory_type m).
Proof. set_column_cases. Qed.

Lemma set_column_importance :
  forall col v m m',
    MemoryUpdate.set_column col v m = Some m' ->
    (col = "importance" -> MemoryUpdate.as_text v = Some (Note.importance m'))
    /\ (col <> "importance" -> Note.importance m' = Note.importance m).
Proof. set_column_cases. Qed.

Lemma set_column_tags :
  forall col v m m',
    MemoryUpdate.set_column col v m = Some m' ->
    (col = "tags" -> MemoryUpdate.as_text_array v = Some (Note.tags m'))
    /\ (col <> "tags" -> Note.tags m' = Note.tags m).
Proof. set_column_cases. Qed.

Lemma set_column_archived :
  forall col v m m',
    MemoryUpdate.set_column col v m = Some m' ->
    (col = "archived" -> MemoryUpdate.as_boolean v = Some (Note.archived m'))
    /\ (col <> "archived" -> Note.archived m' = Note.archived m).
Proof. set_column_cases. Qed.

Lemma columns_NoDup : List.NoDup MemoryUpdate.columns.
Proof.
  unfold MemoryUpdate.columns.
  repeat (constructor; [simpl; intuition discriminate|]). constructor.
Qed.

Lemma as_vector_of_vector (e : vector) :
  MemoryUpdate.as_vector (MemoryUpdate.of_vector e) = Some (Some e).
Proof.
  unfold MemoryUpdate.as_vector, MemoryUpdate.of_vector.
  assert (H : MemoryUpdate.as_reals
                (List.map (fun q => Js.Number (Js.Fin q)) e) = Some e).
  { induction e as [|q e IH]; simpl; [reflexivity|]. rewrite IH. reflexivity. }
  rewrite H. reflexivity.
Qed.

Lemma update_rows_changed_In (u : gmap string Js.value) (i : uuid)
    (table changed table' : list Note.t) (x : Note.t) :
  MemoryUpdate.update_rows u i table = Some (changed, table') ->
  In x changed -> In x table'.
Proof.
  revert changed table'.
  induction table as [|m table IH]; simpl; intros changed table' H Hx.
  - injection H as <- <-. destruct Hx.
  - destruct (MemoryUpdate.update_rows u i table) as [[ch rest']|]; [|discriminate].
    destruct (String.eqb (Note.id m) i).
    + destruct (MemoryUpdate.apply_update u m) as [m'|]; [|discriminate].
      injection H as <- <-. destruct Hx as [->|Hx]; [left; reflexivity|].
      right. eapply IH; [reflexivity|exact Hx].
    + injection H as <- <-. right. eapply IH; [reflexivity|exact Hx].
Qed.

Lemma lookup_other_steps (f : MemoryUpdate.Fields) (d : MemoryUpdate.Draft)
    (c : string) :
  fst (MemoryUpdate.other_steps f d) !! c
  = if is_defined (MemoryUpdate.archived f) && String.eqb "archived" c
    then Some (MemoryUpdate.archived f)
    else if is_defined (MemoryUpdate.tags f) && String.eqb "tags" c
    then Some (MemoryUpdate.tags f)
    else if is_defined (MemoryUpdate.importance f) && String.eqb "importance" c
    then Some (MemoryUpdate.importance f)
    else if is_defined (MemoryUpdate.memoryType f) && String.eqb "memory_type" c
    then Some (MemoryUpdate.memoryType f)
    else fst d !! c.
Proof.
  unfold MemoryUpdate.other_steps. rewrite !lookup_put_if_defined. reflexivity.
Qed.

Lemma changed_other_steps (f : MemoryUpdate.Fields) (d : MemoryUpdate.Draft) :
  snd (MemoryUpdate.other_steps f d)
  = (snd d
     ++ (if is_defined (MemoryUpdate.memoryType f) then ["memory_type"] else [])
     ++ (if is_defined (MemoryUpdate.importance f) then ["importance"] else [])
     ++ (if is_defined (MemoryUpdate.tags f) then ["tags"] else [])
     ++ (if is_defined (MemoryUpdate.archived f) then ["archived"] else []))%list.
Proof.
  unfold MemoryUpdate.other_steps. rewrite !changed_put_if_defined.
  rewrite <- !app_assoc. reflexivity.
Qed.

Lemma content_step_cases
    (NumberToString : Js.num -> string)
    (generateEmbedding : string -> option vector)
    (c : Js.value) (existingNote : Note.t) (d : MemoryUpdate.Draft) :
  MemoryUpdate.content_step NumberToString generateEmbedding c existingNote d
  = if has_value c
    then
      if String.eqb (Js.trim (Js.ToString NumberToString c)) ""
      then None
      else
        Some
          (MemoryUpdate.regenerate_embedding generateEmbedding
             (Js.trim (Js.ToString NumberToString c)) existingNote
             (MemoryUpdate.put "content"
                (Js.String (Js.trim (Js.ToString NumberToString c))) d))
    else Some d.
Proof. destruct c; reflexivity. Qed.

Lemma content_step_draft
    (NumberToString : Js.num -> string)
    (generateEmbedding : string -> option vector)
    (c : Js.value) (existingNote : Note.t) (d : MemoryUpdate.Draft) :
  MemoryUpdate.content_step NumberToString generateEmbedding c existingNote
    (∅, []) = Some d ->
  let trimmed := Js.trim (Js.ToString NumberToString c) in
  let regenerate :=
    has_value c && negb (String.eqb trimmed (Note.content existingNote)) in
  (has_value c = true -> trimmed <> "")
  /\ fst d !! "content"
     = (if has_value c then Some (Js.String trimmed) else None)
  /\ fst d !! "embedding"
     = (if regenerate
        then option_map MemoryUpdate.of_vector (generateEmbedding trimmed)
        else None)
  /\ (forall col, String.eqb "content" col = false ->
                  String.eqb "embedding" col = false -> fst d !! col = None)
  /\ snd d
     = (if has_value c
        then "content"
             :: (if regenerate
                 then match generateEmbedding trimmed with
                      | Some _ => ["embedding"]
                      | None => []
                      end
                 else [])
        else []).
Proof.
  rewrite content_step_cases. cbv zeta.
  destruct (has_value c) eqn:Hv.
  - set (t := Js.trim (Js.ToString NumberToString c)).
    destruct (String.eqb t "") eqn:Eempty; [discriminate|].
    intros [= <-]. split; [intros _; apply String.eqb_neq, Eempty|].
    unfold MemoryUpdate.regenerate_embedding. cbn [andb].
    destruct (negb (String.eqb t (Note.content existingNote)));
      [destruct (generateEmbedding t)|];
      rewrite ?lookup_put;
      (split; [reflexivity|]); (split; [reflexivity|]);
      (split; [|reflexivity]);
      intros col H1 H2; rewrite ?lookup_put, ?H1, ?H2; apply lookup_empty.
  - intros [= <-]. split; [discriminate|]. cbn [andb fst snd].
    split; [apply lookup_empty|]. split; [apply lookup_empty|].
    split; [|reflexivity]. intros. apply lookup_empty.
Qed.

Ltac other_steps_lookup :=
  rewrite lookup_other_steps;
  repeat
    match goal with
    | |- context [is_defined ?v] => destruct (is_defined v)
    end;
  try reflexivity.

Lemma lookup_other_steps_content (f : MemoryUpdate.Fields)
    (d : MemoryUpdate.Draft) :
  fst (MemoryUpdate.other_steps f d) !! "content" = fst d !! "content".
Proof. other_steps_lookup. Qed.

Lemma lookup_other_steps_embedding (f : MemoryUpdate.Fields)
    (d : MemoryUpdate.Draft) :
  fst (MemoryUpdate.other_steps f d) !! "embedding" = fst d !! "embedding".
Proof. other_steps_lookup. Qed.

Lemma lookup_other_steps_memory_type (f : MemoryUpdate.Fields)
    (d : MemoryUpdate.Draft) :
  fst d !! "memory_type" = None ->
  fst (MemoryUpdate.other_steps f d) !! "memory_type"
  = if is_defined (MemoryUpdate.memoryType f)
    then Some (MemoryUpdate.memoryType f) else None.
Proof. intro H. other_steps_lookup; exact H. Qed.

Lemma lookup_other_steps_importance (f : MemoryUpdate.Fields)
    (d : MemoryUpdate.Draft) :
  fst d !! "importance" = None ->
  fst (MemoryUpdate.other_steps f d) !! "importance"
  = if is_defined (MemoryUpdate.importance f)
    then Some (MemoryUpdate.importance f) else None.
Proof. intro H. other_steps_lookup; exact H. Qed.

Lemma lookup_other_steps_tags (f : MemoryUpdate.Fields)
    (d : MemoryUpdate.Draft) :
  fst d !! "tags" = None ->
  fst (MemoryUpdate.other_steps f d) !! "tags"
  = if is_defined (MemoryUpdate.tags f)
    then Some (MemoryUpdate.tags f) else None.
Proof. intro H. other_steps_lookup; exact H. Qed.

Lemma lookup_other_steps_archived (f : MemoryUpdate.Fields)
    (d : MemoryUpdate.Draft) :
  fst d !! "archived" = None ->
  fst (MemoryUpdate.other_steps f d) !! "archived"
  = if is_defined (MemoryUpdate.archived f)
    then Some (MemoryUpdate.archived f) else None.
Proof. intro H. other_steps_lookup; exact H. Qed.





(** The statuses of memory-update are 200, 400, 404 and 500, and an
    answer carries an error exactly when its status is not 200. *)
Theorem memory_update_response_shape
    (NumberToString : Js.num -> string)
    (generateEmbedding : string -> option vector)
    (env : Env) (memory_notes : list Note.t)
    (req : Request MemoryUpdate.Fields) :
  let resp :=
    fst (MemoryUpdate.serve NumberToString generateEmbedding env memory_notes
           req) in
  (status resp = 200%Z /\ MemoryUpdate.error (body resp) = None)
  \/ ((status resp = 400%Z \/ status resp = 404%Z \/ status resp = 500%Z)
      /\ MemoryUpdate.error (body resp) <> None
      /\ MemoryUpdate.success (body resp) = None
      /\ MemoryUpdate.note (body resp) = None).
Proof.
  unfold MemoryUpdate.serve.
  repeat
    match goal with
    | |- context [if ?c then _ else _] => destruct c
    | |- context [let '(_, _) := ?x in _] => destruct x
    | |- context [match ?x with _ => _ end] => destruct x
    end;
    simpl;
    first [ left; split; reflexivity
          | right; split; [auto|split; [discriminate|split; reflexivity]] ].
Qed.

Lemma filter_none {A} (p : A -> bool) (l : list A) :
  (forall x, In x l -> p x = false) -> List.filter p l = [].
Proof.
  induction l as [|a l IH]; simpl; [reflexivity|]. intro H.
  rewrite (H a) by (left; reflexivity). apply IH.
  intros x Hx. apply H. right. exact Hx.
Qed.




